(** * static/js/main.js: the UI helper layer of the Project Manager front end

    A shallow embedding of the helpers exported as [window.ProjectManager]:
    the date formatters, the form validator, the modal controller with its
    page-wide dismissal listeners, the alert notifier and the [fetch]
    wrapper.  Each definition follows the JavaScript function of the same
    name; what the browser supplies (the clock, date parsing and printing,
    the network, the printing of floating-point numbers and the text of
    engine-raised errors) is a parameter of the section that uses it. *)

From Stdlib Require Import ZArith String Ascii List Bool Lia.
From Stdlib Require Import Numbers.DecimalString Floats.
Import ListNotations.

Set Warnings "-register-all".

Open Scope list_scope.
Open Scope string_scope.

(** ** JavaScript strings and numbers, as far as the helpers use them *)

(** [`${n}`] for an integral Number below 1e21 in magnitude: its decimal
    digits, with a leading minus sign below zero. *)
Definition Z_to_string (z : Z) : string :=
  NilZero.string_of_int (Z.to_int z).

(** [!s] on a string: only the empty string is falsy. *)
Definition string_truthy (s : string) : bool :=
  match s with
  | EmptyString => false
  | String _ _ => true
  end.

(** [s.includes(sub)]. *)
Fixpoint includes (sub s : string) : bool :=
  if prefix sub s then true
  else match s with
       | EmptyString => false
       | String _ r => includes sub r
       end.

(** [s.trim()].  Strings are held as UTF-8, so the white space and line
    terminators trim removes are one, two or three bytes long: U+0009 to
    U+000D and U+0020; U+00A0; U+1680, U+2000 to U+200A, U+2028, U+2029,
    U+202F, U+205F, U+3000 and U+FEFF. *)
Definition ws1 (a : ascii) : bool :=
  let n := N_of_ascii a in
  ((9 <=? n) && (n <=? 13) || (n =? 32))%N.

Definition ws2 (a b : ascii) : bool :=
  ((N_of_ascii a =? 194) && (N_of_ascii b =? 160))%N.

Definition ws3 (a b c : ascii) : bool :=
  let x := N_of_ascii a in
  let y := N_of_ascii b in
  let z := N_of_ascii c in
  ((x =? 225) && (y =? 154) && (z =? 128)
   || (x =? 226) && (y =? 128)
      && ((128 <=? z) && (z <=? 138) || (z =? 168) || (z =? 169) || (z =? 175))
   || (x =? 226) && (y =? 129) && (z =? 159)
   || (x =? 227) && (y =? 128) && (z =? 128)
   || (x =? 239) && (y =? 187) && (z =? 191))%N.

(** Drop the leading characters that [p1], [p2] or [p3] recognise. *)
Fixpoint strip (p1 : ascii -> bool) (p2 : ascii -> ascii -> bool)
    (p3 : ascii -> ascii -> ascii -> bool) (s : string) : string :=
  match s with
  | EmptyString => EmptyString
  | String a r1 =>
    if p1 a then strip p1 p2 p3 r1
    else match r1 with
         | EmptyString => s
         | String b r2 =>
           if p2 a b then strip p1 p2 p3 r2
           else match r2 with
                | EmptyString => s
                | String c r3 => if p3 a b c then strip p1 p2 p3 r3 else s
                end
         end
  end.

Fixpoint string_rev (s : string) : string :=
  match s with
  | EmptyString => EmptyString
  | String a r => string_rev r ++ String a EmptyString
  end.

Definition trimStart (s : string) : string := strip ws1 ws2 ws3 s.

Definition trimEnd (s : string) : string :=
  string_rev
    (strip ws1 (fun b a => ws2 a b) (fun c b a => ws3 a b c) (string_rev s)).

Definition trim (s : string) : string := trimEnd (trimStart s).

(** ** The part of the DOM the helpers read and write *)

(** An inline style: the declarations of [element.style] in the order they
    were first set, each value kept as it was written. *)
Definition style_decl : Type := list (string * string).

(** [style[prop]]: the empty string for a property that is not set. *)
Fixpoint style_get (prop : string) (st : style_decl) : string :=
  match st with
  | [] => ""
  | (p, v) :: rest => if (p =? prop)%string then v else style_get prop rest
  end.

(** [style[prop] = v] for a non-empty [v]: overwrite in place, or append. *)
Fixpoint style_set (prop v : string) (st : style_decl) : style_decl :=
  match st with
  | [] => [(prop, v)]
  | (p, w) :: rest =>
    if (p =? prop)%string then (p, v) :: rest
    else (p, w) :: style_set prop v rest
  end.

(** The [style] attribute as the browser writes it back after an
    assignment through [element.style]: [prop: value;] joined by spaces. *)
Definition cssText (st : style_decl) : string :=
  String.concat " " (map (fun d => fst d ++ ": " ++ snd d ++ ";") st).

Record element : Type := mkElement {
  el_id : option string;        (* the id attribute *)
  className : string;           (* the class attribute *)
  required : bool;              (* carries the required attribute *)
  value : string;               (* the value of a form control *)
  textContent : string;
  style : style_decl
}.

Definition set_style (prop v : string) (e : element) : element :=
  {| el_id := el_id e; className := className e; required := required e;
     value := value e; textContent := textContent e;
     style := style_set prop v (style e) |}.

(** [element.classList]: the class attribute split at ASCII white space. *)
Definition class_space (a : ascii) : bool :=
  let n := N_of_ascii a in
  ((n =? 9) || (n =? 10) || (n =? 12) || (n =? 13) || (n =? 32))%N.

Fixpoint tokens (acc s : string) : list string :=
  match s with
  | EmptyString => if string_truthy acc then [acc] else []
  | String a r =>
    if class_space a
    then (if string_truthy acc then acc :: tokens "" r else tokens "" r)
    else tokens (acc ++ String a EmptyString) r
  end.

Definition classList (e : element) : list string := tokens "" (className e).

Definition contains (cl : list string) (c : string) : bool :=
  existsb (String.eqb c) cl.

(** Selectors the helpers pass to [querySelectorAll]. *)
Definition has_class (c : string) (e : element) : bool :=
  contains (classList e) c.

(** [.modal[style*="block"]] *)
Definition open_modal (e : element) : bool :=
  has_class "modal" e && includes "block" (cssText (style e)).

(** [list[i] := f list[i]], the write through a reference to the [i]th
    element of a document. *)
Fixpoint update_at (i : nat) (f : element -> element) (l : list element)
  : list element :=
  match l, i with
  | [], _ => []
  | e :: r, O => f e :: r
  | e :: r, S j => e :: update_at j f r
  end.

(** ** Formatter: [formatDate] and [formatRelativeTime] *)

Module Formatter.

(** The argument the page passes as [dateString]: a field of a decoded
    record, which is a string, [null], or missing altogether. *)
Inductive timestamp : Type :=
| Undefined
| Null
| Str (s : string).

(** [!dateString]. *)
Definition truthy (t : timestamp) : bool :=
  match t with
  | Undefined | Null => false
  | Str s => string_truthy s
  end.

(** A Number holding a count of milliseconds or of days.  Time values are
    integers and every quotient below is floored at once, so the only
    non-integral value to carry is [NaN], the time value of an invalid
    Date.  The floor of the double quotient is the integer quotient as
    long as the two instants are less than 2^27 days apart, which every
    valid Date is from a present-day clock. *)
Inductive number : Type :=
| NaN
| Int (z : Z).

Definition minus (a b : number) : number :=
  match a, b with
  | Int x, Int y => Int (x - y)%Z
  | _, _ => NaN
  end.

(** [Math.floor(a / k)] for a positive integer constant [k]. *)
Definition floor_div (a : number) (k : Z) : number :=
  match a with
  | Int x => Int (x / k)%Z
  | NaN => NaN
  end.

(** [a === k] and [a < k] against an integer literal: false on [NaN]. *)
Definition strict_eq (a : number) (k : Z) : bool :=
  match a with
  | Int x => (x =? k)%Z
  | NaN => false
  end.

Definition less (a : number) (k : Z) : bool :=
  match a with
  | Int x => (x <? k)%Z
  | NaN => false
  end.

Definition to_string (a : number) : string :=
  match a with
  | Int x => Z_to_string x
  | NaN => "NaN"
  end.

Definition ms_per_day : Z := (1000 * 60 * 60 * 24)%Z.

(** The inputs the sentinels answer: [undefined], [null] and the empty
    string. *)
Definition empty_or_absent (t : timestamp) : Prop :=
  t = Undefined \/ t = Null \/ t = Str "".

Section Platform.

(** [new Date(s).getTime()]: [None] for an invalid Date. *)
Variable Date_parse : string -> option Z.

(** [date.toLocaleDateString('en-US', {year: 'numeric', month: 'short',
    day: 'numeric'})] on a time value. *)
Variable toLocaleDateString : number -> string.

Definition new_Date (t : timestamp) : number :=
  match t with
  | Str s => match Date_parse s with
             | Some ms => Int ms
             | None => NaN
             end
  | Null => Int 0
  | Undefined => NaN
  end.

Definition formatDate (dateString : timestamp) : string :=
  if negb (truthy dateString) then "Not set"
  else
    let date := new_Date dateString in
    toLocaleDateString date.

(** [now] is the time value [new Date()] reads from the clock. *)
Definition formatRelativeTime (now : Z) (dateString : timestamp) : string :=
  if negb (truthy dateString) then "Unknown"
  else
    let date := new_Date dateString in
    let diffMs := minus (Int now) date in
    let diffDays := floor_div diffMs ms_per_day in
    if strict_eq diffDays 0 then "Today"
    else if strict_eq diffDays 1 then "Yesterday"
    else if less diffDays 7 then to_string diffDays ++ " days ago"
    else if less diffDays 30 then to_string (floor_div diffDays 7) ++ " weeks ago"
    else if less diffDays 365 then to_string (floor_div diffDays 30) ++ " months ago"
    else to_string (floor_div diffDays 365) ++ " years ago".

End Platform.

End Formatter.

(** ** Validator: [validateForm] and [resetFormValidation] *)

Module Validator.

(** A form scope is the sequence of the form's descendant elements in tree
    order, the order in which [querySelectorAll] lists them.  Neither
    function changes the tree. *)
Definition form : Type := list element.

Definition borderColor (e : element) : string :=
  style_get "border-color" (style e).

(** The [forEach] over [querySelectorAll('[required]')], threading the
    [isValid] flag it assigns. *)
Fixpoint forEach_required (fields : form) (isValid : bool) : bool * form :=
  match fields with
  | [] => (isValid, [])
  | field :: rest =>
    if required field then
      if negb (string_truthy (trim (value field))) then
        let (v, rest') := forEach_required rest false in
        (v, set_style "border-color" "#de350b" field :: rest')
      else
        let (v, rest') := forEach_required rest isValid in
        (v, set_style "border-color" "#dfe1e6" field :: rest')
    else
      let (v, rest') := forEach_required rest isValid in
      (v, field :: rest')
  end.

Definition validateForm (formElement : form) : bool * form :=
  let isValid := true in
  forEach_required formElement isValid.

(** The loop read field by field: what one pass does to one field, and
    the fields that do not clear the flag. *)
Definition mark (field : element) : element :=
  if required field then
    if string_truthy (trim (value field))
    then set_style "border-color" "#dfe1e6" field
    else set_style "border-color" "#de350b" field
  else field.

Definition filled (field : element) : bool :=
  negb (required field) || string_truthy (trim (value field)).

(** The [forEach] over [querySelectorAll('.form-control')]. *)
Definition resetFormValidation (formElement : form) : form :=
  map (fun field =>
         if has_class "form-control" field
         then set_style "border-color" "#dfe1e6" field
         else field)
      formElement.

End Validator.

(** ** ModalController: [showModal], [hideModal] and the two page-wide
    listeners *)

Module Modal.

(** The page as the modal code sees it: the inline style of [body] and the
    elements below [body] in tree order; [html], [head] and [body] carry no
    id or class of a modal.  Nothing here changes the tree. *)
Record page : Type := mkPage {
  body_style : style_decl;
  elements : list element
}.

(** [document.getElementById(id)]: the first element in tree order with
    that id, as its position, or [None] for [null]. *)
Fixpoint getElementById (doc : list element) (id : string) : option nat :=
  match doc with
  | [] => None
  | e :: rest =>
    match el_id e with
    | Some i => if (i =? id)%string then Some O
                else option_map S (getElementById rest id)
    | None => option_map S (getElementById rest id)
    end
  end.

Definition showModal (modalId : string) (p : page) : page :=
  match getElementById (elements p) modalId with
  | Some modal =>
    {| elements := update_at modal (set_style "display" "block") (elements p);
       body_style := style_set "overflow" "hidden" (body_style p) |}
  | None => p
  end.

Definition hideModal (modalId : string) (p : page) : page :=
  match getElementById (elements p) modalId with
  | Some modal =>
    {| elements := update_at modal (set_style "display" "none") (elements p);
       body_style := style_set "overflow" "auto" (body_style p) |}
  | None => p
  end.

(** [window.onclick]: [target] is the position of [event.target]; a click
    that lands on [body] itself or above it has no position and, carrying
    no [modal] class, changes nothing. *)
Definition window_onclick (target : nat) (p : page) : page :=
  match nth_error (elements p) target with
  | Some e =>
    if contains (classList e) "modal" then
      {| elements := update_at target (set_style "display" "none") (elements p);
         body_style := style_set "overflow" "auto" (body_style p) |}
    else p
  | None => p
  end.

(** The [keydown] listener. *)
Definition document_keydown (key : string) (p : page) : page :=
  if (key =? "Escape")%string then
    {| elements :=
         map (fun modal =>
                if open_modal modal then set_style "display" "none" modal
                else modal)
             (elements p);
       body_style := style_set "overflow" "auto" (body_style p) |}
  else p.

(** What can happen to the modals of a page, and a run of such events. *)
Inductive event : Type :=
| ShowModal (modalId : string)
| HideModal (modalId : string)
| Click (target : nat)
| Keydown (key : string).

Definition step (p : page) (ev : event) : page :=
  match ev with
  | ShowModal i => showModal i p
  | HideModal i => hideModal i p
  | Click t => window_onclick t p
  | Keydown k => document_keydown k p
  end.

Definition run (p : page) (evs : list event) : page := fold_left step evs p.

(** Observations: the scroll-lock is [overflow: hidden] on [body]; a modal
    is shown while its inline [display] is [block]. *)
Definition scroll_locked (p : page) : bool :=
  (style_get "overflow" (body_style p) =? "hidden")%string.

Definition display (e : element) : string := style_get "display" (style e).

Definition visible (e : element) : bool := (display e =? "block")%string.

Definition visible_modals (p : page) : list element :=
  filter visible (elements p).

End Modal.

(** ** Errors and the page state shared by the notifier and the request
    client *)

(** A thrown value: every one the helpers meet is an Error object, read
    through its [message]. *)
Record js_error : Type := mkError {
  name : string;
  message : string
}.

(** [new Error(msg)] *)
Definition new_Error (msg : string) : js_error :=
  {| name := "Error"; message := msg |}.

(** How a function body completes. *)
Inductive completion (A : Type) : Type :=
| Return (a : A)
| Throw (e : js_error).

Arguments Return {A} a.
Arguments Throw {A} e.

(** ** Notifier: [showAlert] *)

Module Notifier.

(** Alerts are inserted and removed, so here the tree is kept: a node is an
    element with its identity and its child elements.  The page is the
    forest below [body]; [body] and what is above it carry no [alert]
    class. *)
Inductive node : Type :=
| Node (uid : nat) (el : element) (children : list node).

Definition node_uid (n : node) : nat :=
  match n with Node u _ _ => u end.

Definition node_el (n : node) : element :=
  match n with Node _ e _ => e end.

(** What [showAlert] leaves behind for later turns of the event loop: both
    closures hold the element they created. *)
Inductive callback : Type :=
| RemoveIfAttached (uid : nat)   (* if (alertDiv.parentNode) alertDiv.remove() *)
| Remove (uid : nat).            (* alertDiv.remove() *)

Record world : Type := mkWorld {
  body : list node;                          (* the children of body *)
  next_uid : nat;                            (* identity of the next created element *)
  timers : list (Z * callback);              (* setTimeout(callback, delay) *)
  listeners : list (nat * string * callback);(* addEventListener on a node *)
  console : list (string * js_error)         (* console.error(label, error) *)
}.

(** [querySelectorAll(selector)] over the document, in tree order. *)
Fixpoint descendants (n : node) : list element :=
  match n with
  | Node _ e cs =>
    e :: (fix all (l : list node) : list element :=
            match l with
            | [] => []
            | c :: r => (descendants c ++ all r)%list
            end) cs
  end.

Definition all_elements (forest : list node) : list element :=
  flat_map descendants forest.

Definition querySelectorAll (sel : element -> bool) (w : world) : list element :=
  filter sel (all_elements (body w)).

(** [existingAlerts.forEach(alert => alert.remove())]: every element with
    the [alert] class leaves the tree, with all that is below it. *)
Fixpoint remove_alerts (n : node) : node :=
  match n with
  | Node u e cs =>
    Node u e
      ((fix each (l : list node) : list node :=
          match l with
          | [] => []
          | c :: r =>
            if has_class "alert" (node_el c) then each r
            else remove_alerts c :: each r
          end) cs)
  end.

Fixpoint remove_all_alerts (forest : list node) : list node :=
  match forest with
  | [] => []
  | c :: r =>
    if has_class "alert" (node_el c) then remove_all_alerts r
    else remove_alerts c :: remove_all_alerts r
  end.

(** [document.createElement('div')] *)
Definition createElement_div : element :=
  {| el_id := None; className := ""; required := false; value := "";
     textContent := ""; style := [] |}.

(** [type] is [None] when the caller leaves the argument out. *)
Definition showAlert (msg : string) (type : option string) (w : world) : world :=
  let type := match type with Some t => t | None => "success" end in
  let document := remove_all_alerts (body w) in
  let alertDiv :=
    {| el_id := el_id createElement_div;
       className := "alert alert-" ++ type;
       required := required createElement_div;
       value := value createElement_div;
       textContent := msg;
       style := style createElement_div |} in
  let uid := next_uid w in
  {| body := (document ++ [Node uid alertDiv []])%list;
     next_uid := S uid;
     timers := (timers w ++ [(4000%Z, RemoveIfAttached uid)])%list;
     listeners := (listeners w ++ [(uid, "click", Remove uid)])%list;
     console := console w |}.

(** [node.remove()] for the node created as [uid]. *)
Fixpoint detach (uid : nat) (n : node) : node :=
  match n with
  | Node u e cs =>
    Node u e
      ((fix each (l : list node) : list node :=
          match l with
          | [] => []
          | c :: r =>
            if Nat.eqb (node_uid c) uid then each r
            else detach uid c :: each r
          end) cs)
  end.

Fixpoint detach_all (uid : nat) (forest : list node) : list node :=
  match forest with
  | [] => []
  | c :: r =>
    if Nat.eqb (node_uid c) uid then detach_all uid r
    else detach uid c :: detach_all uid r
  end.

(** Running one of the two closures; on a node that already left the tree
    both leave the tree as it is. *)
Definition run_callback (cb : callback) (w : world) : world :=
  match cb with
  | RemoveIfAttached uid | Remove uid =>
    {| body := detach_all uid (body w); next_uid := next_uid w;
       timers := timers w; listeners := listeners w; console := console w |}
  end.

Definition console_error (label : string) (e : js_error) (w : world) : world :=
  {| body := body w; next_uid := next_uid w; timers := timers w;
     listeners := listeners w;
     console := (console w ++ [(label, e)])%list |}.

(** The notifications on display: the elements [.alert] selects. *)
Definition alerts (w : world) : list element :=
  querySelectorAll (has_class "alert") w.

End Notifier.

(** ** RequestClient: [makeRequest] *)

Module RequestClient.

Import Notifier.

(** A value decoded by [response.json()], or passed as [data]. *)
Inductive json : Type :=
| JNull
| JBool (b : bool)
| JNum (f : float)
| JStr (s : string)
| JArr (items : list json)
| JObj (members : list (string * json)).

(** What [makeRequest] hands back: the decoded JSON value or the raw
    text. *)
Inductive payload : Type :=
| FromJson (j : json)
| FromText (s : string).

(** [obj[key]] on the own properties of a decoded object; a key that is
    repeated holds the value written last. *)
Fixpoint get_member (key : string) (members : list (string * json)) : option json :=
  match members with
  | [] => None
  | (k, v) :: rest =>
    match get_member key rest with
    | Some later => Some later
    | None => if (k =? key)%string then Some v else None
    end
  end.

(** Truthiness, as [||] and [if] test it. *)
Definition to_boolean (j : json) : bool :=
  match j with
  | JNull => false
  | JBool b => b
  | JNum f => negb (PrimFloat.eqb f 0 || PrimFloat.is_nan f)
  | JStr s => string_truthy s
  | JArr _ | JObj _ => true
  end.

(** A Response, as far as [makeRequest] reads it.  [json_body] and
    [text_body] are what [response.json()] and [response.text()] settle
    to: a rejection (a body that is not JSON, a stream that breaks) or the
    decoded value. *)
Record response : Type := mkResponse {
  status : Z;
  statusText : string;
  content_type : option string;     (* headers.get('content-type') *)
  json_body : js_error + json;
  text_body : js_error + string
}.

(** [response.ok]: the status is in the range 200 to 299. *)
Definition ok (r : response) : bool :=
  ((200 <=? status r) && (status r <=? 299))%Z.

(** The second argument of [fetch]. *)
Record request_init : Type := mkInit {
  method : string;
  headers : list (string * string);
  request_body : option string
}.

Section Platform.

(** The network: what [fetch(url, options)] settles to. *)
Variable fetch : string -> request_init -> js_error + response.

Variable JSON_stringify : json -> string.

(** Number to string conversion of the engine. *)
Variable number_to_string : float -> string.

(** The TypeError the engine raises for a property read on [null], and
    the one for an object that cannot be converted to a primitive. *)
Variable null_property_error : js_error.
Variable to_primitive_error : js_error.

(** [String(v)], as [new Error(v)] applies it to its argument.  An array
    joins its items with commas, [null] items as empty strings; a decoded
    object prints as [[object Object]] unless an own member hides
    [toString], which no decoded value can replace by a function. *)
Fixpoint ToString (j : json) : js_error + string :=
  match j with
  | JNull => inr "null"
  | JBool true => inr "true"
  | JBool false => inr "false"
  | JNum f => inr (number_to_string f)
  | JStr s => inr s
  | JArr items =>
    (fix join (first : bool) (l : list json) : js_error + string :=
       match l with
       | [] => inr ""
       | x :: r =>
         let sep := if first then "" else "," in
         let item := match x with
                     | JNull => inr ""
                     | _ => ToString x
                     end in
         match item with
         | inl e => inl e
         | inr s =>
           match join false r with
           | inl e => inl e
           | inr t => inr (sep ++ s ++ t)
           end
         end
       end) true items
  | JObj members =>
    match get_member "toString" members with
    | Some _ => inl to_primitive_error
    | None => inr "[object Object]"
    end
  end.

(** [result.message]: [None] is [undefined]. *)
Definition get_message (result : payload) : js_error + option json :=
  match result with
  | FromText _ => inr None
  | FromJson JNull => inl null_property_error
  | FromJson (JObj members) => inr (get_member "message" members)
  | FromJson _ => inr None
  end.

(** [contentType && contentType.includes('application/json')], and the
    branch on it with the [await] of the body it selects. *)
Definition declares_json (response : response) : bool :=
  let contentType := content_type response in
  match contentType with
  | Some ct => string_truthy ct && includes "application/json" ct
  | None => false
  end.

Definition decode_body (response : response) : js_error + payload :=
  if declares_json response
  then match json_body response with
       | inl e => inl e
       | inr j => inr (FromJson j)
       end
  else match text_body response with
       | inl e => inl e
       | inr s => inr (FromText s)
       end.

(** [`HTTP ${response.status}: ${response.statusText}`] *)
Definition http_message (response : response) : string :=
  "HTTP " ++ Z_to_string (status response) ++ ": " ++ statusText response.

(** The body of the [try] block. *)
Definition try_request (url : string) (options : request_init)
  : completion payload :=
  match fetch url options with
  | inl e => Throw e
  | inr response =>
    match decode_body response with
    | inl e => Throw e
    | inr result =>
      if negb (ok response) then
        match get_message result with
        | inl e => Throw e
        | inr m =>
          match m with
          | Some v =>
            if to_boolean v
            then match ToString v with
                 | inl e => Throw e
                 | inr s => Throw (new_Error s)
                 end
            else Throw (new_Error (http_message response))
          | None => Throw (new_Error (http_message response))
          end
        end
      else Return result
    end
  end.

(** The [options] object; [method] and [data] are [None] when the caller
    leaves them out. *)
Definition request_options (method : option string) (data : option json)
  : request_init :=
  let method := match method with Some m => m | None => "GET" end in
  let data := match data with Some d => d | None => JNull end in
  {| method := method;
     headers := [("Content-Type", "application/json")];
     request_body :=
       if to_boolean data then Some (JSON_stringify data) else None |}.

Definition makeRequest (url : string) (method : option string)
    (data : option json) (w : world) : completion payload * world :=
  let options := request_options method data in
  match try_request url options with
  | Return result => (Return result, w)
  | Throw error =>
    let w1 := console_error "Request failed:" error w in
    let w2 := showAlert (message error) (Some "error") w1 in
    (Throw error, w2)
  end.

End Platform.

(** The error policy in the words of the specification: the [message]
    field of a JSON error payload if present, otherwise the synthesized
    [HTTP {status}: {statusText}], otherwise the transport error's own
    message. *)
Definition policy_message (outcome : js_error + response) : string :=
  match outcome with
  | inr r =>
    let in_payload :=
      match content_type r, json_body r with
      | Some ct, inr (JObj members) =>
        if includes "application/json" ct
        then match get_member "message" members with
             | Some (JStr m) => Some m
             | _ => None
             end
        else None
      | _, _ => None
      end in
    match in_payload with
    | Some m => m
    | None => http_message r
    end
  | inl transport => message transport
  end.

(** The message a completion carries when it is a failure. *)
Definition failure_message {A : Type} (c : completion A) : option string :=
  match c with
  | Throw e => Some (message e)
  | Return _ => None
  end.

End RequestClient.

(** ** Worked inputs *)

Module Examples.

(** A parser for two ISO instants, with their time values. *)
Definition parse (s : string) : option Z :=
  if (s =? "2024-01-01T00:00:00.000Z")%string then Some 1704067200000%Z
  else if (s =? "2024-03-01T12:00:00.000Z")%string then Some 1709294400000%Z
  else None.

Definition new_year : string := "2024-01-01T00:00:00.000Z".

(** Form controls: a text input with a class attribute, a required mark
    and a value. *)
Definition input (cls : string) (req : bool) (v : string) : element :=
  {| el_id := None; className := cls; required := req; value := v;
     textContent := ""; style := [] |}.

(** A form with an empty and a filled required field and an optional
    one. *)
Definition signup : Validator.form :=
  [ input "form-control" true "   ";
    input "form-control" true "Ada";
    input "form-control" false "" ].

(** A form whose only field is required, empty, and carries no
    [form-control] class. *)
Definition bare : Validator.form := [ input "" true "" ].

(** A page with two dialogs, both closed, and a body that scrolls. *)
Definition dialog (id : string) : element :=
  {| el_id := Some id; className := "modal"; required := false; value := "";
     textContent := ""; style := [("display", "none")] |}.

Definition two_modals : Modal.page :=
  {| Modal.body_style := [];
     Modal.elements := [ dialog "a"; input "form-control" false ""; dialog "b" ] |}.

(** A page that already shows two alerts: one rendered by the server with
    a child element, one nested in a container. *)
Definition div (cls text : string) : element :=
  {| el_id := None; className := cls; required := false; value := "";
     textContent := text; style := [] |}.

Definition banner_page : Notifier.world :=
  {| Notifier.body :=
       [ Notifier.Node 0 (div "alert alert-info" "Saved")
           [ Notifier.Node 1 (div "close" "x") [] ];
         Notifier.Node 2 (div "container" "")
           [ Notifier.Node 3 (div "alert" "Old") [];
             Notifier.Node 4 (div "card" "") [] ] ];
     Notifier.next_uid := 5;
     Notifier.timers := [];
     Notifier.listeners := [];
     Notifier.console := [] |}.

(** Engine pieces for the request examples. *)
Definition stringify (_ : RequestClient.json) : string := "{}".
Definition print_number (_ : float) : string := "0".
Definition null_error : js_error :=
  {| name := "TypeError";
     message := "Cannot read properties of null (reading 'message')" |}.
Definition primitive_error : js_error :=
  {| name := "TypeError";
     message := "Cannot convert object to primitive value" |}.

(** The double quote character, for JSON text. *)
Definition dq : string := String (ascii_of_nat 34) EmptyString.

(** Four networks: one that is down, and three servers that answer every
    request with the same error response. *)
Definition offline (_ : string) (_ : RequestClient.request_init)
  : js_error + RequestClient.response :=
  inl {| name := "TypeError"; message := "Failed to fetch" |}.

Definition bad_input : RequestClient.response :=
  {| RequestClient.status := 400;
     RequestClient.statusText := "Bad Request";
     RequestClient.content_type := Some "application/json; charset=utf-8";
     RequestClient.json_body :=
       inr (RequestClient.JObj [("message", RequestClient.JStr "bad input")]);
     RequestClient.text_body :=
       inr ("{" ++ dq ++ "message" ++ dq ++ ": " ++ dq ++ "bad input" ++ dq ++ "}") |}.

Definition plain_500 : RequestClient.response :=
  {| RequestClient.status := 500;
     RequestClient.statusText := "Internal Server Error";
     RequestClient.content_type := Some "text/html";
     RequestClient.json_body :=
       inl {| name := "SyntaxError"; message := "Unexpected end of JSON input" |};
     RequestClient.text_body := inr "" |}.

(** A 500 that declares JSON and sends an empty body. *)
Definition empty_json_500 : RequestClient.response :=
  {| RequestClient.status := 500;
     RequestClient.statusText := "Internal Server Error";
     RequestClient.content_type := Some "application/json";
     RequestClient.json_body :=
       inl {| name := "SyntaxError"; message := "Unexpected end of JSON input" |};
     RequestClient.text_body := inr "" |}.

(** A 400 whose payload carries an empty [message]. *)
Definition empty_message_400 : RequestClient.response :=
  {| RequestClient.status := 400;
     RequestClient.statusText := "Bad Request";
     RequestClient.content_type := Some "application/json";
     RequestClient.json_body :=
       inr (RequestClient.JObj [("message", RequestClient.JStr "")]);
     RequestClient.text_body := inr "" |}.

Definition server (r : RequestClient.response) (_ : string)
    (_ : RequestClient.request_init) : js_error + RequestClient.response :=
  inr r.

(** [makeRequest] against one of these networks. *)
Definition request (net : string -> RequestClient.request_init ->
                          js_error + RequestClient.response)
  : completion RequestClient.payload * Notifier.world :=
  RequestClient.makeRequest net stringify print_number null_error
    primitive_error "/api/projects" None None banner_page.

End Examples.

(** ** The remaining helpers of main.js *)

(** The double quote character, for markup. *)
Definition quote_char : ascii := ascii_of_nat 34.

(** *** [toggleVisibility] *)

Module Visibility.

Import Modal.

Definition toggleVisibility (elementId : string) (p : page) : page :=
  match getElementById (elements p) elementId with
  | Some element =>
    {| elements :=
         update_at element
           (fun e =>
              set_style "display"
                (if (display e =? "none")%string then "block" else "none") e)
           (elements p);
       body_style := body_style p |}
  | None => p
  end.

(** The [display] of the first element with the id, for a page that has
    one. *)
Definition display_of (elementId : string) (p : page) : option string :=
  match getElementById (elements p) elementId with
  | Some i => option_map display (nth_error (elements p) i)
  | None => None
  end.

End Visibility.

(** *** [showLoading] and [hideLoading] *)

Module Loading.

(** A button, as far as the two helpers and the click listener touch it.
    [innerHTML] is kept as the markup last assigned; the text the button
    shows is that markup parsed, which is the browser's work. *)
Record button : Type := mkButton {
  button_type : string;
  disabled : bool;
  innerHTML : string
}.

Definition spinner : string :=
  "<span class=" ++ String quote_char "spinner" ++ String quote_char "></span>".

(** [originalText] is [None] when the caller leaves it out. *)
Definition showLoading (buttonElement : button) (originalText : option string)
  : button :=
  let label :=
    match originalText with
    | Some t => if string_truthy t then t else "Loading..."
    | None => "Loading..."
    end in
  {| button_type := button_type buttonElement;
     disabled := true;
     innerHTML := spinner ++ " " ++ label |}.

(** An argument left out is assigned as the text [undefined]. *)
Definition hideLoading (buttonElement : button) (originalText : option string)
  : button :=
  {| button_type := button_type buttonElement;
     disabled := false;
     innerHTML := match originalText with
                  | Some t => t
                  | None => "undefined"
                  end |}.

End Loading.

(** *** [copyToClipboard] *)

Module Clipboard.

Import Notifier.

(** [writeText] is what [navigator.clipboard.writeText(text)] settles to:
    [None] when it resolves, the rejection otherwise. *)
Definition copyToClipboard (writeText : string -> option js_error)
    (text : string) (w : world) : completion unit * world :=
  match writeText text with
  | None => (Return tt, showAlert "Copied to clipboard!" (Some "success") w)
  | Some err =>
    let w1 := console_error "Failed to copy: " err w in
    (Return tt, showAlert "Failed to copy to clipboard" (Some "error") w1)
  end.

End Clipboard.

(** *** [escapeHtml] *)

Module Escape.

(** [div.textContent = text; return div.innerHTML]: the text comes back
    as the serialisation of one text node, which writes [&amp;], [&lt;],
    [&gt;] and, for U+00A0 (the bytes 194 160), [&nbsp;], and every other
    character as it is. *)
Fixpoint escapeHtml (text : string) : string :=
  match text with
  | EmptyString => EmptyString
  | String a r =>
    let n := N_of_ascii a in
    if (n =? 38)%N then "&amp;" ++ escapeHtml r
    else if (n =? 60)%N then "&lt;" ++ escapeHtml r
    else if (n =? 62)%N then "&gt;" ++ escapeHtml r
    else if (n =? 194)%N then
      match r with
      | String b r' =>
        if (N_of_ascii b =? 160)%N then "&nbsp;" ++ escapeHtml r'
        else String a (escapeHtml r)
      | EmptyString => String a EmptyString
      end
    else String a (escapeHtml r)
  end.

(** How often a character occurs in a string. *)
Fixpoint count_char (c : ascii) (s : string) : nat :=
  match s with
  | EmptyString => O
  | String a r => if Ascii.eqb a c then S (count_char c r) else count_char c r
  end.

End Escape.

(** *** [debounce] *)

Module Debounce.

(** The delay [setTimeout] takes from an integral [wait]: the argument is
    converted to a signed 32-bit integer, and a negative result counts as
    zero.  So a wait from 0 to 2^31 - 1 is itself, and a negative wait or
    one from 2^31 to 2^32 - 1 is no delay at all. *)
Definition to_int32 (z : Z) : Z :=
  ((z + 2 ^ 31) mod 2 ^ 32 - 2 ^ 31)%Z.

Definition delay (wait : Z) : Z := Z.max (to_int32 wait) 0.

Section Debounced.

(** The arguments a call passes on, and the [wait] given to [debounce]. *)
Variable A : Type.
Variable wait : Z.

(** A timer this closure has set: its handle, the time from which it may
    fire, and the [args] its [later] holds. *)
Record timer : Type := mkTimer {
  handle : nat;
  due : Z;
  args : A
}.

(** The closure state: the [timeout] variable, the timers of this closure
    the browser still holds, the next handle [setTimeout] hands out, and
    the argument lists [func] has been called with. *)
Record state : Type := mkState {
  timeout : option nat;
  pending : list timer;
  next_handle : nat;
  delivered : list A
}.

Definition initial : state :=
  {| timeout := None; pending := []; next_handle := 1; delivered := [] |}.

(** [clearTimeout(timeout)]: nothing happens for [undefined] or for a
    handle that is no longer held. *)
Definition clearTimeout (h : option nat) (st : state) : state :=
  match h with
  | None => st
  | Some k =>
    {| timeout := timeout st;
       pending := filter (fun t => negb (Nat.eqb (handle t) k)) (pending st);
       next_handle := next_handle st;
       delivered := delivered st |}
  end.

(** A call of [executedFunction(...args)] at time [now]; the timer may
    fire once the delay [setTimeout] reads from [wait] has passed. *)
Definition executedFunction (now : Z) (a : A) (st : state) : state :=
  let st1 := clearTimeout (timeout st) st in
  let h := next_handle st1 in
  {| timeout := Some h;
     pending := (pending st1 ++
                 [{| handle := h; due := (now + delay wait)%Z; args := a |}])%list;
     next_handle := S h;
     delivered := delivered st1 |}.

(** [later], run by the browser for a timer it has taken off its list. *)
Definition later (t : timer) (st : state) : state :=
  let st1 := clearTimeout (timeout st) st in
  {| timeout := timeout st1;
     pending := pending st1;
     next_handle := next_handle st1;
     delivered := (delivered st1 ++ [args t])%list |}.

(** The timer the browser runs next at time [now]: the one due first,
    the one set first among equals. *)
Fixpoint next_due (now : Z) (l : list timer) : option timer :=
  match l with
  | [] => None
  | t :: r =>
    match next_due now r with
    | Some t' =>
      if (due t <=? now)%Z && (due t <=? due t')%Z then Some t else Some t'
    | None => if (due t <=? now)%Z then Some t else None
    end
  end.

Definition take (t : timer) (st : state) : state :=
  {| timeout := timeout st;
     pending := filter (fun t' => negb (Nat.eqb (handle t') (handle t))) (pending st);
     next_handle := next_handle st;
     delivered := delivered st |}.

(** Time reaches [now]: the timers that are due run one after the other.
    Each run takes a timer off the list, so the length of the list bounds
    the number of runs. *)
Fixpoint fire (fuel : nat) (now : Z) (st : state) : state :=
  match fuel with
  | O => st
  | S fuel' =>
    match next_due now (pending st) with
    | Some t => fire fuel' now (later t (take t st))
    | None => st
    end
  end.

Definition elapse (now : Z) (st : state) : state :=
  fire (List.length (pending st)) now st.

Inductive event : Type :=
| Invoke (now : Z) (a : A)
| Elapse (now : Z).

Definition step (st : state) (ev : event) : state :=
  match ev with
  | Invoke now a => executedFunction now a st
  | Elapse now => elapse now st
  end.

Definition run (st : state) (evs : list event) : state := fold_left step evs st.

(** The argument lists of the calls in a run. *)
Fixpoint invoked (evs : list event) : list A :=
  match evs with
  | [] => []
  | Invoke _ a :: r => a :: invoked r
  | Elapse _ :: r => invoked r
  end.

End Debounced.

Arguments handle {A} t.
Arguments due {A} t.
Arguments args {A} t.
Arguments timeout {A} s.
Arguments pending {A} s.
Arguments next_handle {A} s.
Arguments delivered {A} s.
Arguments Invoke {A} now a.
Arguments Elapse {A} now.

End Debounce.

(** At most one timer is held, and it is the one [timeout] names. *)
Module DebounceState.

Import Debounce.

Definition held {A : Type} (st : state A) : Prop :=
  pending st = [] \/
  exists t, pending st = [t] /\ timeout st = Some (handle t).

(** A burst: calls one after the other, given as time and arguments. *)
Definition burst {A : Type} (calls : list (Z * A)) : list (event A) :=
  map (fun c => Invoke (fst c) (snd c)) calls.

End DebounceState.

(** *** The listeners set up at [DOMContentLoaded] *)

Module Bootstrap.

Import Notifier Loading.

(** The [submit] listener of a form: the first component is whether
    [event.preventDefault()] was called. *)
Definition form_submit (form : Validator.form) (w : world)
  : bool * Validator.form * world :=
  let (valid, form') := Validator.validateForm form in
  if negb valid
  then (true, form', showAlert "Please fill in all required fields" (Some "error") w)
  else (false, form', w).

(** What a click on a button leaves: the button, the form it validated,
    and the [setTimeout] it set, as the delay and the text its closure
    holds for [hideLoading]. *)
Record clicked : Type := mkClicked {
  button_after : button;
  form_after : option Validator.form;
  restore : option (Z * string)
}.

Section Click.

(** [button.textContent] as a function of the markup assigned to the
    button: the text of what the browser parses the markup into. *)
Variable textContent_of : string -> string.

(** A click on a button of class [btn]; [closest] is what
    [button.closest('form')] finds.  The listener is there only for a
    button whose [type] is [submit]. *)
Definition button_click (b : button) (closest : option Validator.form)
  : clicked :=
  if (button_type b =? "submit")%string then
    match closest with
    | Some form =>
      let (valid, form') := Validator.validateForm form in
      if valid then
        let originalText := textContent_of (innerHTML b) in
        {| button_after := showLoading b (Some "Saving...");
           form_after := Some form';
           restore := Some (2000%Z, originalText) |}
      else {| button_after := b; form_after := Some form'; restore := None |}
    | None => {| button_after := b; form_after := None; restore := None |}
    end
  else {| button_after := b; form_after := closest; restore := None |}.

(** The timer set by the click, when it runs. *)
Definition run_restore (c : clicked) : button :=
  match restore c with
  | Some (_, originalText) => hideLoading (button_after c) (Some originalText)
  | None => button_after c
  end.

End Click.

End Bootstrap.

(** *** [showTooltip] and [hideTooltip] *)

Module Tooltip.

Import Notifier.

(** The part of [getBoundingClientRect()] that is read. *)
Record rect : Type := mkRect {
  rect_top : float;
  rect_left : float;
  rect_width : float
}.

(** The page with the [_tooltip] property the handlers keep on their
    targets: pairs of a target and the tooltip node stored on it. *)
Record page : Type := mkPage {
  dom : world;
  expando : list (nat * nat)
}.

Fixpoint get_tooltip (target : nat) (l : list (nat * nat)) : option nat :=
  match l with
  | [] => None
  | (t, tip) :: r => if Nat.eqb t target then Some tip else get_tooltip target r
  end.

Definition delete_tooltip (target : nat) (l : list (nat * nat))
  : list (nat * nat) :=
  filter (fun p => negb (Nat.eqb (fst p) target)) l.

Definition set_body (forest : list node) (w : world) : world :=
  {| body := forest; next_uid := next_uid w; timers := timers w;
     listeners := listeners w; console := console w |}.

Section Layout.

(** What the browser supplies: the [data-tooltip] attribute of a target,
    its box, the measured size of a tooltip, and the printing of a
    Number. *)
Variable data_tooltip : nat -> option string.
Variable getBoundingClientRect : nat -> rect.
Variable offsetHeight : element -> float.
Variable offsetWidth : element -> float.
Variable number_to_string : float -> string.

(** The tooltip element once its [cssText] is assigned. *)
Definition tooltip_element (target : nat) : element :=
  {| el_id := None;
     className := "tooltip";
     required := false;
     value := "";
     textContent := match data_tooltip target with
                    | Some text => text
                    | None => ""
                    end;
     style := [ ("position", "absolute"); ("background", "#172b4d");
                ("color", "white"); ("padding", "0.5rem");
                ("border-radius", "4px"); ("font-size", "0.8rem");
                ("z-index", "1002"); ("white-space", "nowrap") ] |}.

(** The same element with [top] and [left] computed from the box of the
    target and its own measured size. *)
Definition placed_tooltip (target : nat) : element :=
  let tooltip := tooltip_element target in
  let r := getBoundingClientRect target in
  let top := PrimFloat.sub (PrimFloat.sub (rect_top r) (offsetHeight tooltip)) 5 in
  let left :=
    PrimFloat.sub
      (PrimFloat.add (rect_left r) (PrimFloat.div (rect_width r) 2))
      (PrimFloat.div (offsetWidth tooltip) 2) in
  set_style "left" (number_to_string left ++ "px")
    (set_style "top" (number_to_string top ++ "px") tooltip).

(** The [mouseenter] listener, for the target [event.target]. *)
Definition showTooltip (target : nat) (pg : page) : page :=
  let w := dom pg in
  let uid := next_uid w in
  {| dom :=
       {| body := (body w ++ [Node uid (placed_tooltip target) []])%list;
          next_uid := S uid;
          timers := timers w;
          listeners := listeners w;
          console := console w |};
     expando := (target, uid) :: delete_tooltip target (expando pg) |}.

(** The [mouseleave] listener. *)
Definition hideTooltip (target : nat) (pg : page) : page :=
  match get_tooltip target (expando pg) with
  | Some tooltip =>
    {| dom := set_body (detach_all tooltip (body (dom pg))) (dom pg);
       expando := delete_tooltip target (expando pg) |}
  | None => pg
  end.

End Layout.

End Tooltip.

(** *** A page with a repeated id *)

Module MoreExamples.

(** Two elements share the id [panel]; the second is shown, the first is
    not. *)
Definition twins : Modal.page :=
  {| Modal.body_style := [("margin", "0")];
     Modal.elements :=
       [ Examples.input "form-control" false "";
         {| el_id := Some "panel"; className := "modal"; required := false;
            value := ""; textContent := "first";
            style := [("color", "red")] |};
         {| el_id := Some "panel"; className := "modal"; required := false;
            value := ""; textContent := "second";
            style := [("display", "block")] |} ] |}.

(** A server that answers 201 with the created record. *)
Definition created : RequestClient.response :=
  {| RequestClient.status := 201;
     RequestClient.statusText := "Created";
     RequestClient.content_type := Some "application/json";
     RequestClient.json_body :=
       inr (RequestClient.JObj [("id", RequestClient.JStr "p1")]);
     RequestClient.text_body := inr "" |}.

End MoreExamples.

(** *** Properties out of reach of a write *)

Module StyleFamilies.

(** A write to [border-color] or to [overflow] is a write to a shorthand:
    the browser also overwrites the longhands under it
    ([border-top-color], [overflow-y], ...) and so changes what the
    shorthands around them ([border], [border-top], ...) and [all] read.
    All of these carry the name of the family as a prefix, [all] apart, so
    a property whose name starts otherwise is out of reach of the
    write. *)
Definition outside_family (family prop : string) : bool :=
  negb (prefix family prop) && negb (prop =? "all")%string.

End StyleFamilies.

(** *** One pass of [resetFormValidation] over one field *)

Module ValidatorSteps.

Definition clear (field : element) : element :=
  if has_class "form-control" field
  then set_style "border-color" "#dfe1e6" field
  else field.

End ValidatorSteps.

(** *** Node identities on a page *)

Module Identity.

Import Notifier.

Fixpoint node_uids (n : node) : list nat :=
  match n with
  | Node u _ cs =>
    u :: (fix all (l : list node) : list nat :=
            match l with
            | [] => []
            | c :: r => (node_uids c ++ all r)%list
            end) cs
  end.

Definition forest_uids (forest : list node) : list nat :=
  flat_map node_uids forest.

(** Every node of the page was created before the next one will be. *)
Definition allocated (w : world) : Prop :=
  Forall (fun u => u < next_uid w)%nat (forest_uids (body w)).

End Identity.

(** * Properties *)

(** ** Strings *)

Lemma length_append (s t : string) :
  String.length (s ++ t) = (String.length s + String.length t)%nat.
Proof.
  induction s as [|a s IH]; simpl; [reflexivity | now rewrite IH].
Qed.

Lemma string_truthy_false (s : string) : string_truthy s = false <-> s = "".
Proof.
  destruct s; simpl; split; intro H; try reflexivity; discriminate H.
Qed.

Lemma string_truthy_true (s : string) : string_truthy s = true <-> s <> "".
Proof.
  destruct s; simpl; split; intro H; try reflexivity; try discriminate;
    now contradiction H.
Qed.

(** [trim] removes white space of every length at both ends and none
    inside; the class attribute splits at runs of spaces. *)
Example trim_checks :
  trim "  Ada Lovelace  " = "Ada Lovelace" /\
  trim "   " = "" /\
  trim (String (ascii_of_nat 194) (String (ascii_of_nat 160) "x")
          ++ String (ascii_of_nat 9) (String (ascii_of_nat 10) "")) = "x" /\
  tokens "" "  alert   alert-error " = ["alert"; "alert-error"] /\
  includes "application/json" "application/json; charset=utf-8" = true /\
  includes "block" "display: none;" = false.
Proof. repeat split; reflexivity. Qed.

(** ** Formatter *)

Module FormatterFacts.

Import Formatter.

Lemma empty_or_absent_falsy (t : timestamp) :
  empty_or_absent t <-> truthy t = false.
Proof.
  unfold empty_or_absent; split.
  - intros [-> | [-> | ->]]; reflexivity.
  - destruct t as [| |s]; simpl; auto.
    intro H; apply string_truthy_false in H; subst; auto.
Qed.

Section Buckets.

Variable Date_parse : string -> option Z.
Variable toLocaleDateString : number -> string.

(** Past the sentinel, the function is a function of the floored day
    difference alone. *)
Lemma formatRelativeTime_days (now : Z) (s : string) (d : Z) :
  s <> "" -> Date_parse s = Some d ->
  formatRelativeTime Date_parse now (Str s) =
  let N := ((now - d) / ms_per_day)%Z in
  if (N =? 0)%Z then "Today"
  else if (N =? 1)%Z then "Yesterday"
  else if (N <? 7)%Z then Z_to_string N ++ " days ago"
  else if (N <? 30)%Z then Z_to_string (N / 7) ++ " weeks ago"
  else if (N <? 365)%Z then Z_to_string (N / 30) ++ " months ago"
  else Z_to_string (N / 365) ++ " years ago".
Proof.
  intros Hs Hd. unfold formatRelativeTime; simpl.
  apply string_truthy_true in Hs. rewrite Hs, Hd; simpl.
  reflexivity.
Qed.

End Buckets.

Ltac bucket :=
  repeat match goal with
         | |- context [(?a =? ?b)%Z] => destruct (Z.eqb_spec a b); try lia
         | |- context [(?a <? ?b)%Z] => destruct (Z.ltb_spec a b); try lia
         end;
  try reflexivity.

(** C4. A non-empty timestamp whose floored distance from now is [N] whole
    days prints as "Today" for 0, "Yesterday" for 1, "N days ago" for 2 to
    6, the floored weeks for 7 to 29, the floored months of 30 days for 30
    to 364 and the floored years of 365 days from 365 on; so 3, 10, 40 and
    400 days give "3 days ago", "1 weeks ago", "1 months ago" and
    "1 years ago". *)
Theorem formatRelativeTime_buckets :
  forall (Date_parse : string -> option Z) (now : Z) (s : string) (d N : Z),
    s <> "" ->
    Date_parse s = Some d ->
    ((now - d) / ms_per_day)%Z = N ->
    let r := formatRelativeTime Date_parse now (Str s) in
    (N = 0%Z -> r = "Today") /\
    (N = 1%Z -> r = "Yesterday") /\
    ((2 <= N <= 6)%Z -> r = Z_to_string N ++ " days ago") /\
    ((7 <= N <= 29)%Z -> r = Z_to_string (N / 7) ++ " weeks ago") /\
    ((30 <= N <= 364)%Z -> r = Z_to_string (N / 30) ++ " months ago") /\
    ((365 <= N)%Z -> r = Z_to_string (N / 365) ++ " years ago") /\
    (N = 3%Z -> r = "3 days ago") /\
    (N = 10%Z -> r = "1 weeks ago") /\
    (N = 40%Z -> r = "1 months ago") /\
    (N = 400%Z -> r = "1 years ago").
Proof.
  intros Date_parse now s d N Hs Hd HN r. subst r.
  rewrite (formatRelativeTime_days Date_parse now s d Hs Hd).
  cbv zeta. rewrite HN.
  repeat split; intro H; bucket; rewrite H; reflexivity.
Qed.

Lemma formatRelativeTime_buckets_witness :
  formatRelativeTime Examples.parse (1704067200000 + 10 * 86400000 + 5)
    (Str Examples.new_year) = "1 weeks ago".
Proof.
  apply (formatRelativeTime_buckets Examples.parse
           (1704067200000 + 10 * 86400000 + 5) Examples.new_year
           1704067200000 10).
  - discriminate.
  - reflexivity.
  - reflexivity.
  - reflexivity.
Defined.

(** C9. On an empty or absent timestamp [formatDate] answers "Not set" and
    [formatRelativeTime] answers "Unknown"; both are total, so neither
    throws. *)
Theorem empty_timestamp_sentinels :
  forall (Date_parse : string -> option Z)
         (toLocaleDateString : number -> string) (now : Z) (t : timestamp),
    empty_or_absent t ->
    formatDate Date_parse toLocaleDateString t = "Not set" /\
    formatRelativeTime Date_parse now t = "Unknown".
Proof.
  intros Date_parse print now t H.
  apply empty_or_absent_falsy in H.
  unfold formatDate, formatRelativeTime. rewrite H. split; reflexivity.
Qed.

Lemma empty_timestamp_sentinels_witness :
  formatDate Examples.parse (fun _ => "Jan 1, 2024") (Str "") = "Not set" /\
  formatRelativeTime Examples.parse 1704067200000 (Str "") = "Unknown".
Proof.
  apply (empty_timestamp_sentinels Examples.parse (fun _ => "Jan 1, 2024")
           1704067200000 (Str "")).
  right; right; reflexivity.
Defined.

(** C10. A non-empty timestamp strictly in the future has a floored day
    difference of at most -1: the answer is never "Today" but the
    "days ago" line with that negative count, "-1 days ago" one hour
    ahead. *)
Theorem formatRelativeTime_future :
  forall (Date_parse : string -> option Z) (now : Z) (s : string) (d : Z),
    s <> "" ->
    Date_parse s = Some d ->
    (now < d)%Z ->
    let N := ((now - d) / ms_per_day)%Z in
    let r := formatRelativeTime Date_parse now (Str s) in
    (N <= -1)%Z /\
    r <> "Today" /\
    r = Z_to_string N ++ " days ago" /\
    (d = (now + 3600000)%Z -> r = "-1 days ago").
Proof.
  intros Date_parse now s d Hs Hd Hlt N r.
  assert (HN : (N <= -1)%Z).
  { subst N. unfold ms_per_day.
    assert ((now - d) / (1000 * 60 * 60 * 24) < 0)%Z; [|lia].
    apply Z.div_lt_upper_bound; lia. }
  assert (Hr : r = Z_to_string N ++ " days ago").
  { subst r. rewrite (formatRelativeTime_days Date_parse now s d Hs Hd).
    fold N. cbv zeta. bucket. }
  repeat split; try assumption.
  - rewrite Hr. intro E. apply (f_equal String.length) in E.
    rewrite length_append in E. simpl in E. lia.
  - intro Hd1. rewrite Hr. subst N.
    replace (now - d)%Z with (-3600000)%Z by lia. reflexivity.
Qed.

Lemma formatRelativeTime_future_witness :
  formatRelativeTime Examples.parse (1704067200000 - 3600000)
    (Str Examples.new_year) = "-1 days ago".
Proof.
  apply (formatRelativeTime_future Examples.parse (1704067200000 - 3600000)
           Examples.new_year 1704067200000).
  - discriminate.
  - reflexivity.
  - reflexivity.
  - reflexivity.
Defined.

End FormatterFacts.

(** ** Inline styles *)

Lemma style_get_set_same (prop v : string) (st : style_decl) :
  style_get prop (style_set prop v st) = v.
Proof.
  induction st as [|[p w] st IH]; simpl.
  - now rewrite String.eqb_refl.
  - destruct (String.eqb_spec p prop) as [E|E]; simpl.
    + subst p. now rewrite String.eqb_refl.
    + apply String.eqb_neq in E. now rewrite E.
Qed.

Lemma style_get_set_other (prop q v : string) (st : style_decl) :
  prop <> q -> style_get q (style_set prop v st) = style_get q st.
Proof.
  intro Hne. induction st as [|[p w] st IH]; simpl.
  - apply String.eqb_neq in Hne. now rewrite Hne.
  - destruct (String.eqb_spec p prop) as [E|E]; simpl.
    + subst p. apply String.eqb_neq in Hne. now rewrite Hne.
    + destruct (String.eqb_spec p q); [reflexivity | exact IH].
Qed.

(** ** Validator *)

Module ValidatorFacts.

Import Validator.

Lemma forEach_required_map (fields : form) (isValid : bool) :
  forEach_required fields isValid =
  (isValid && forallb filled fields, map mark fields).
Proof.
  revert isValid.
  induction fields as [|field rest IH]; intro isValid; simpl.
  - now rewrite andb_true_r.
  - unfold mark, filled.
    destruct (required field); simpl.
    + destruct (string_truthy (trim (value field))); simpl; rewrite IH.
      * reflexivity.
      * simpl. now rewrite andb_false_r.
    + rewrite IH. reflexivity.
Qed.

Lemma borderColor_set (v : string) (field : element) :
  borderColor (set_style "border-color" v field) = v.
Proof. apply style_get_set_same. Qed.

Lemma filled_all (fields : form) :
  forallb filled fields = true <->
  (forall f, In f fields -> required f = true -> trim (value f) <> "").
Proof.
  rewrite forallb_forall. unfold filled.
  split; intros H f Hin.
  - intro Hreq. specialize (H f Hin). rewrite Hreq in H; simpl in H.
    now apply string_truthy_true.
  - destruct (required f) eqn:Hreq; simpl; [|reflexivity].
    apply string_truthy_true. now apply H.
Qed.

(** C6. [validateForm] answers true exactly when every required field has
    a non-empty trimmed value; it keeps every field in place, marks the
    required fields whose trimmed value is empty with the error colour,
    resets the other required fields to the plain colour and leaves the
    fields that are not required as they were.  On a form with an empty
    and a filled required field the answer is false and only the empty
    one carries the error colour. *)
Theorem validateForm_required_fields :
  forall formElement : form,
    let isValid := fst (validateForm formElement) in
    let after := snd (validateForm formElement) in
    (isValid = true <->
     forall f, In f formElement -> required f = true -> trim (value f) <> "") /\
    List.length after = List.length formElement /\
    (forall i f, nth_error formElement i = Some f ->
       exists f', nth_error after i = Some f' /\
         (required f = true -> trim (value f) = "" ->
            f' = set_style "border-color" "#de350b" f /\
            borderColor f' = "#de350b") /\
         (required f = true -> trim (value f) <> "" ->
            f' = set_style "border-color" "#dfe1e6" f /\
            borderColor f' = "#dfe1e6") /\
         (required f = false -> f' = f)) /\
    fst (validateForm Examples.signup) = false /\
    map borderColor (snd (validateForm Examples.signup)) =
      ["#de350b"; "#dfe1e6"; ""].
Proof.
  intros formElement isValid after. subst isValid after.
  unfold validateForm. rewrite !forEach_required_map. simpl fst; simpl snd.
  split; [apply filled_all|].
  split; [apply length_map|].
  split; [|split; reflexivity].
  intros i f Hi. exists (mark f). split.
  - rewrite nth_error_map, Hi. reflexivity.
  - unfold mark. split; [|split].
    + intros Hreq He. rewrite Hreq, He. simpl.
      split; [reflexivity | apply borderColor_set].
    + intros Hreq He. apply string_truthy_true in He. rewrite Hreq, He.
      split; [reflexivity | apply borderColor_set].
    + intros Hreq. rewrite Hreq. reflexivity.
Qed.

Lemma validateForm_required_fields_witness :
  exists f', nth_error (snd (validateForm Examples.signup)) 0 = Some f' /\
             borderColor f' = "#de350b".
Proof.
  destruct (validateForm_required_fields Examples.signup)
    as (_ & _ & Hfield & _).
  destruct (Hfield 0%nat (Examples.input "form-control" true "   ") eq_refl)
    as (f' & Hnth & Hempty & _).
  exists f'. split; [exact Hnth|].
  apply Hempty; reflexivity.
Defined.

(** C7, as the code has it. [resetFormValidation] resets the border colour
    of every field in the scope that carries the [form-control] class,
    whatever its value and whatever colour it had, and touches no other
    field: a field that [validateForm] marked is back to the plain colour
    when it carries the class and keeps the error colour when it does
    not. *)
Theorem resetFormValidation_form_controls :
  forall (formElement : form) (i : nat) (f : element),
    nth_error formElement i = Some f ->
    exists f', nth_error (resetFormValidation formElement) i = Some f' /\
      (has_class "form-control" f = true ->
         f' = set_style "border-color" "#dfe1e6" f /\
         borderColor f' = "#dfe1e6") /\
      (has_class "form-control" f = false -> f' = f).
Proof.
  intros formElement i f Hi.
  unfold resetFormValidation. rewrite nth_error_map, Hi. simpl.
  eexists; split; [reflexivity|].
  split; intro Hc; rewrite Hc; [split|]; try reflexivity.
  apply borderColor_set.
Qed.

Lemma resetFormValidation_form_controls_witness :
  exists f',
    nth_error (resetFormValidation (snd (validateForm Examples.signup))) 0
      = Some f' /\
    borderColor f' = "#dfe1e6".
Proof.
  destruct (resetFormValidation_form_controls
              (snd (validateForm Examples.signup)) 0%nat
              (set_style "border-color" "#de350b"
                 (Examples.input "form-control" true "   ")) eq_refl)
    as (f' & Hnth & Hclass & _).
  exists f'. split; [exact Hnth|].
  apply Hclass; reflexivity.
Defined.

(** C7, as the specification words it, fails: a required field without the
    [form-control] class is marked by [validateForm] and still carries the
    error colour after [resetFormValidation]. *)
Lemma resetFormValidation_keeps_mark :
  map borderColor (snd (validateForm Examples.bare)) = ["#de350b"] /\
  map borderColor (resetFormValidation (snd (validateForm Examples.bare)))
    = ["#de350b"].
Proof. split; reflexivity. Qed.

End ValidatorFacts.

(** ** Substrings of a serialised style *)

Lemma prefix_append (sub rest : string) : prefix sub (sub ++ rest) = true.
Proof.
  induction sub as [|a sub IH]; simpl.
  - now destruct rest.
  - destruct (ascii_dec a a) as [_|N]; [exact IH | now contradiction N].
Qed.

Lemma includes_unfold (sub s : string) :
  includes sub s =
  prefix sub s || match s with
                  | EmptyString => false
                  | String _ r => includes sub r
                  end.
Proof.
  destruct s as [|a r]; simpl.
  - now destruct sub.
  - now destruct (prefix sub (String a r)).
Qed.

Lemma includes_append (sub before rest : string) :
  includes sub (before ++ sub ++ rest) = true.
Proof.
  induction before as [|a before IH].
  - rewrite includes_unfold. simpl append. now rewrite prefix_append.
  - rewrite includes_unfold. simpl append. cbv iota. rewrite IH.
    apply orb_true_r.
Qed.

Lemma append_assoc (a b c : string) : (a ++ b) ++ c = a ++ b ++ c.
Proof.
  induction a as [|x a IH]; simpl; [reflexivity | now rewrite IH].
Qed.

Lemma includes_weaken (sub before s : string) :
  includes sub s = true -> includes sub (before ++ s) = true.
Proof.
  intro H. induction before as [|a before IH]; [exact H|].
  rewrite includes_unfold. simpl append. cbv iota. rewrite IH.
  apply orb_true_r.
Qed.

Lemma includes_intro (sub before rest s : string) :
  s = before ++ sub ++ rest -> includes sub s = true.
Proof. intros ->. apply includes_append. Qed.

(** A declared value shows in the serialised style. *)
Lemma includes_cssText (prop v : string) (st : style_decl) :
  v <> "" -> style_get prop st = v -> includes v (cssText st) = true.
Proof.
  intros Hv. induction st as [|[p w] st IH]; intro Hget; simpl in Hget.
  - now contradiction Hv.
  - unfold cssText in *. cbn [map fst snd].
    destruct (String.eqb_spec p prop) as [E|E].
    + subst w.
      destruct (map (fun d => fst d ++ ": " ++ snd d ++ ";") st) as [|d ds].
      * apply (includes_intro v (p ++ ": ") ";").
        simpl. now rewrite !append_assoc.
      * apply (includes_intro v (p ++ ": ")
                 (";" ++ " " ++ String.concat " " (d :: ds))).
        cbn [String.concat]. now rewrite !append_assoc.
    + specialize (IH Hget).
      destruct (map (fun d => fst d ++ ": " ++ snd d ++ ";") st) as [|d ds].
      * simpl in IH. destruct v; [now contradiction Hv | discriminate IH].
      * cbn [String.concat]. apply includes_weaken.
        apply (includes_weaken v " "). exact IH.
Qed.

(** ** Writes through a position *)

Lemma update_at_length (i : nat) (f : element -> element) (l : list element) :
  List.length (update_at i f l) = List.length l.
Proof.
  revert i; induction l as [|e l IH]; intros [|i]; simpl; auto.
Qed.

Lemma update_at_same (i : nat) (f : element -> element) (l : list element) :
  nth_error (update_at i f l) i = option_map f (nth_error l i).
Proof.
  revert i; induction l as [|e l IH]; intros [|i]; simpl; auto.
Qed.

Lemma update_at_other (i j : nat) (f : element -> element) (l : list element) :
  i <> j -> nth_error (update_at i f l) j = nth_error l j.
Proof.
  revert i j; induction l as [|e l IH]; intros [|i] [|j] H; simpl; auto.
  now contradiction H.
Qed.

(** ** ModalController *)

Module ModalFacts.

Import Modal.

Lemma getElementById_nth (doc : list element) (id : string) (i : nat) :
  getElementById doc id = Some i ->
  exists e, nth_error doc i = Some e /\ el_id e = Some id.
Proof.
  revert i. induction doc as [|e doc IH]; intros i H; simpl in H.
  - discriminate H.
  - destruct (el_id e) as [x|] eqn:Hid.
    + destruct (String.eqb_spec x id) as [E|E].
      * injection H as <-. exists e. subst x. now split.
      * destruct (getElementById doc id) as [k|]; [|discriminate H].
        injection H as <-. exact (IH k eq_refl).
    + destruct (getElementById doc id) as [k|]; [|discriminate H].
      injection H as <-. exact (IH k eq_refl).
Qed.

(** A write to an inline style moves no id. *)
Lemma getElementById_update (doc : list element) (id : string) (i : nat)
    (f : element -> element) :
  (forall e, el_id (f e) = el_id e) ->
  getElementById (update_at i f doc) id = getElementById doc id.
Proof.
  intro Hf. revert i.
  induction doc as [|e doc IH]; intros [|i]; simpl; try reflexivity.
  - now rewrite Hf.
  - now rewrite IH.
Qed.

Lemma getElementById_set_style (doc : list element) (id prop v : string)
    (i : nat) :
  getElementById (update_at i (set_style prop v) doc) id = getElementById doc id.
Proof. apply getElementById_update. reflexivity. Qed.

Lemma getElementById_distinct (doc : list element) (a b : string) (ia ib : nat) :
  a <> b -> getElementById doc a = Some ia -> getElementById doc b = Some ib ->
  ia <> ib.
Proof.
  intros Hab Ha Hb E. subst ib.
  destruct (getElementById_nth _ _ _ Ha) as (e & He & Hida).
  destruct (getElementById_nth _ _ _ Hb) as (e' & He' & Hidb).
  rewrite He in He'. injection He' as <-. rewrite Hida in Hidb.
  injection Hidb as E. now apply Hab.
Qed.

Lemma showModal_present (id : string) (i : nat) (p : page) :
  getElementById (elements p) id = Some i ->
  showModal id p =
  {| elements := update_at i (set_style "display" "block") (elements p);
     body_style := style_set "overflow" "hidden" (body_style p) |}.
Proof. intro H. unfold showModal. now rewrite H. Qed.

Lemma hideModal_present (id : string) (i : nat) (p : page) :
  getElementById (elements p) id = Some i ->
  hideModal id p =
  {| elements := update_at i (set_style "display" "none") (elements p);
     body_style := style_set "overflow" "auto" (body_style p) |}.
Proof. intro H. unfold hideModal. now rewrite H. Qed.

Lemma scroll_locked_set (v : string) (st : style_decl) (els : list element) :
  scroll_locked {| body_style := style_set "overflow" v st; elements := els |}
  = (v =? "hidden")%string.
Proof. unfold scroll_locked; simpl. now rewrite style_get_set_same. Qed.

Lemma display_set (v : string) (e : element) :
  display (set_style "display" v e) = v.
Proof. apply style_get_set_same. Qed.

(** Escape closes every element of class [modal] that is shown. *)
Lemma keydown_Escape_closes (p : page) (e : element) :
  In e (elements (document_keydown "Escape" p)) ->
  has_class "modal" e = true -> visible e = false.
Proof.
  simpl. rewrite in_map_iff. intros (e0 & <- & _) Hc.
  unfold open_modal in *.
  destruct (has_class "modal" e0) eqn:Hc0; simpl in *; [|congruence].
  destruct (includes "block" (cssText (style e0))) eqn:Hinc.
  - unfold visible. now rewrite display_set.
  - unfold visible.
    destruct (String.eqb_spec (display e0) "block") as [E|E]; [|reflexivity].
    rewrite (includes_cssText "display" "block" (style e0)) in Hinc;
      [discriminate Hinc | discriminate | exact E].
Qed.

(** C1, as the code has it. The scroll-lock is released by every
    [hideModal] of a present modal, every backdrop click on an element of
    class [modal] and every Escape key press, whether or not another modal
    is still shown.  Escape leaves no element of class [modal] shown; hide
    and backdrop click set the display of their target to none and write
    to no other element.
    After show(a), show(b), hide(a) on two distinct present modals, b is
    still shown and scroll is unlocked. *)
Theorem scroll_unlocked_on_every_close :
  forall p : page,
    (scroll_locked (document_keydown "Escape" p) = false /\
     forall e, In e (elements (document_keydown "Escape" p)) ->
               has_class "modal" e = true -> visible e = false) /\
    (forall id i, getElementById (elements p) id = Some i ->
       scroll_locked (hideModal id p) = false /\
       (exists e', nth_error (elements (hideModal id p)) i = Some e' /\
                   display e' = "none" /\ visible e' = false) /\
       forall j, j <> i ->
         nth_error (elements (hideModal id p)) j = nth_error (elements p) j) /\
    (forall t e, nth_error (elements p) t = Some e ->
       has_class "modal" e = true ->
       scroll_locked (window_onclick t p) = false /\
       (exists e', nth_error (elements (window_onclick t p)) t = Some e' /\
                   display e' = "none" /\ visible e' = false) /\
       forall j, j <> t ->
         nth_error (elements (window_onclick t p)) j = nth_error (elements p) j) /\
    (forall a b ia ib, a <> b ->
       getElementById (elements p) a = Some ia ->
       getElementById (elements p) b = Some ib ->
       let p' := run p [ShowModal a; ShowModal b; HideModal a] in
       scroll_locked p' = false /\
       exists e, nth_error (elements p') ib = Some e /\ visible e = true).
Proof.
  intro p. repeat apply conj.
  - unfold document_keydown; simpl. apply scroll_locked_set.
  - apply keydown_Escape_closes.
  - intros id i Hi. rewrite (hideModal_present id i p Hi).
    destruct (getElementById_nth _ _ _ Hi) as (e & He & _).
    split; [|split].
    + apply scroll_locked_set.
    + exists (set_style "display" "none" e). simpl.
      rewrite update_at_same, He. unfold visible.
      rewrite display_set. repeat split; reflexivity.
    + intros j Hj. simpl. apply update_at_other. congruence.
  - intros t e Ht Hc. unfold window_onclick. rewrite Ht.
    unfold has_class in Hc. rewrite Hc. split; [|split].
    + apply scroll_locked_set.
    + exists (set_style "display" "none" e). simpl.
      rewrite update_at_same, Ht. unfold visible.
      rewrite display_set. repeat split; reflexivity.
    + intros j Hj. simpl. apply update_at_other. congruence.
  - intros a b ia ib Hab Ha Hb p'. subst p'. simpl.
    assert (Hne : ia <> ib) by exact (getElementById_distinct _ a b ia ib Hab Ha Hb).
    rewrite (showModal_present a ia p Ha).
    rewrite (showModal_present b ib); simpl;
      [|now rewrite getElementById_set_style].
    rewrite (hideModal_present a ia); simpl;
      [|now rewrite !getElementById_set_style].
    split; [apply scroll_locked_set|].
    destruct (getElementById_nth _ _ _ Hb) as (e & He & _).
    exists (set_style "display" "block" e). split.
    + rewrite update_at_other by exact Hne.
      rewrite update_at_same.
      rewrite update_at_other by exact Hne.
      now rewrite He.
    + unfold visible. now rewrite display_set.
Qed.

Lemma scroll_unlocked_on_every_close_witness :
  scroll_locked
    (run Examples.two_modals [ShowModal "a"; ShowModal "b"; HideModal "a"])
  = false.
Proof.
  destruct (scroll_unlocked_on_every_close Examples.two_modals)
    as (_ & _ & _ & H).
  destruct (H "a" "b" 0%nat 2%nat) as [Hlock _].
  - discriminate.
  - reflexivity.
  - reflexivity.
  - exact Hlock.
Defined.

(** C1, as the specification words it, fails: after show(a), show(b),
    hide(a) the page scrolls again while modal b is shown. *)
Lemma scroll_unlocked_while_modal_visible :
  let p := run Examples.two_modals
             [ShowModal "a"; ShowModal "b"; HideModal "a"] in
  map el_id (visible_modals p) = [Some "b"] /\ scroll_locked p = false.
Proof. split; reflexivity. Qed.

(** C8, as the code has it. For a modal id present in the document, show
    sets its display to block and locks scroll; the hide that follows sets
    its display to none and unlocks scroll, writing to no other element.
    That is the scroll state before the show only when scroll was unlocked
    then. *)
Theorem show_then_hide :
  forall (p : page) (id : string) (i : nat),
    getElementById (elements p) id = Some i ->
    let shown := showModal id p in
    let hidden := hideModal id shown in
    (exists e, nth_error (elements shown) i = Some e /\ display e = "block") /\
    scroll_locked shown = true /\
    (exists e, nth_error (elements hidden) i = Some e /\ display e = "none") /\
    scroll_locked hidden = false /\
    (forall j, j <> i -> nth_error (elements hidden) j = nth_error (elements p) j) /\
    (scroll_locked p = false -> scroll_locked hidden = scroll_locked p).
Proof.
  intros p id i Hi shown hidden.
  destruct (getElementById_nth _ _ _ Hi) as (e & He & _).
  assert (Hs : shown =
    {| elements := update_at i (set_style "display" "block") (elements p);
       body_style := style_set "overflow" "hidden" (body_style p) |})
    by apply (showModal_present id i p Hi).
  assert (Hh : hidden =
    {| elements := update_at i (set_style "display" "none") (elements shown);
       body_style := style_set "overflow" "auto" (body_style shown) |}).
  { apply hideModal_present. rewrite Hs; simpl.
    now rewrite getElementById_set_style. }
  rewrite Hh, Hs. simpl. repeat apply conj.
  - exists (set_style "display" "block" e).
    rewrite update_at_same, He. split; [reflexivity | apply display_set].
  - apply scroll_locked_set.
  - exists (set_style "display" "none" (set_style "display" "block" e)).
    rewrite !update_at_same, He. split; [reflexivity | apply display_set].
  - apply scroll_locked_set.
  - intros j Hj. rewrite !update_at_other by congruence. reflexivity.
  - intros Hp. rewrite Hp. apply scroll_locked_set.
Qed.

Lemma show_then_hide_witness :
  scroll_locked (hideModal "a" (showModal "a" Examples.two_modals)) = false.
Proof.
  destruct (show_then_hide Examples.two_modals "a" 0%nat eq_refl)
    as (_ & _ & _ & H & _).
  exact H.
Defined.

(** C8, as the specification words it, fails: with modal b shown and
    scroll locked, show(a) then hide(a) leaves scroll unlocked, which is
    not the scroll state before the show. *)
Lemma show_then_hide_changes_scroll :
  let before := showModal "b" Examples.two_modals in
  let after := hideModal "a" (showModal "a" before) in
  scroll_locked before = true /\ scroll_locked after = false /\
  map el_id (visible_modals after) = [Some "b"].
Proof. repeat split; reflexivity. Qed.

End ModalFacts.

(** ** Notifier *)

Module NotifierFacts.

Import Notifier.

(** Induction on a node with the hypothesis for every child. *)
Lemma node_children_ind (P : node -> Prop) :
  (forall u e cs, Forall P cs -> P (Node u e cs)) -> forall n, P n.
Proof.
  intro H. fix IH 1. intros [u e cs]. apply H.
  induction cs as [|c cs IHcs]; constructor; [apply IH | exact IHcs].
Qed.

Lemma descendants_Node (u : nat) (e : element) (cs : list node) :
  descendants (Node u e cs) = e :: all_elements cs.
Proof. reflexivity. Qed.

Lemma remove_alerts_Node (u : nat) (e : element) (cs : list node) :
  remove_alerts (Node u e cs) = Node u e (remove_all_alerts cs).
Proof. reflexivity. Qed.

Lemma all_elements_cons (c : node) (cs : list node) :
  all_elements (c :: cs) = (descendants c ++ all_elements cs)%list.
Proof. reflexivity. Qed.

Lemma all_elements_app (l r : list node) :
  all_elements (l ++ r) = (all_elements l ++ all_elements r)%list.
Proof. apply flat_map_app. Qed.

(** Below a node that stays, no alert stays. *)
Lemma remove_alerts_below (n : node) :
  filter (has_class "alert") (descendants (remove_alerts n)) =
  filter (has_class "alert") [node_el n].
Proof.
  induction n as [u e cs IH] using node_children_ind.
  rewrite remove_alerts_Node, descendants_Node. simpl node_el.
  cbn [filter]. 
  assert (E : filter (has_class "alert") (all_elements (remove_all_alerts cs)) = []).
  { induction IH as [|c cs Hc _ IHcs]; [reflexivity|].
    cbn [remove_all_alerts].
    destruct (has_class "alert" (node_el c)) eqn:Hcls; [exact IHcs|].
    rewrite all_elements_cons, filter_app, Hc, IHcs.
    cbn [filter]. now rewrite Hcls. }
  rewrite E. reflexivity.
Qed.

Lemma remove_all_alerts_none (forest : list node) :
  filter (has_class "alert") (all_elements (remove_all_alerts forest)) = [].
Proof.
  induction forest as [|c cs IH]; [reflexivity|].
  cbn [remove_all_alerts].
  destruct (has_class "alert" (node_el c)) eqn:Hcls; [exact IH|].
  rewrite all_elements_cons, filter_app, remove_alerts_below, IH.
  cbn [filter]. now rewrite Hcls.
Qed.

(** The class written by [showAlert] always has [alert] as its first
    token. *)
Lemma alert_class (type : string) (e : element) :
  className e = "alert alert-" ++ type -> has_class "alert" e = true.
Proof.
  intro H. unfold has_class, classList. rewrite H. reflexivity.
Qed.

(** After a call the page shows the new alert and no other. *)
Lemma showAlert_alerts (m : string) (t : option string) (w0 : world) :
  alerts (showAlert m t w0) =
  [ {| el_id := None;
       className := "alert alert-" ++ match t with Some k => k | None => "success" end;
       required := false; value := ""; textContent := m; style := [] |} ].
Proof.
  unfold alerts, querySelectorAll, showAlert.
  cbn [body]. rewrite all_elements_app, filter_app, remove_all_alerts_none.
  cbn [all_elements flat_map descendants app filter createElement_div
       el_id required value style].
  rewrite (alert_class (match t with Some k => k | None => "success" end));
    reflexivity.
Qed.

(** C5. [showAlert] takes every element of class [alert] out of the page,
    then appends one new element with the message as its text: after any
    call the alerts on the page are that one element, so after two calls
    in a row the only alert shows the second message.  A call without a
    kind is a call with [success]. *)
Theorem showAlert_single_alert :
  forall (msg : string) (type : option string) (w : world),
    let kind := match type with Some t => t | None => "success" end in
    let alertDiv :=
      {| el_id := None; className := "alert alert-" ++ kind;
         required := false; value := ""; textContent := msg; style := [] |} in
    let w' := showAlert msg type w in
    body w' = (remove_all_alerts (body w) ++ [Node (next_uid w) alertDiv []])%list /\
    filter (has_class "alert") (all_elements (remove_all_alerts (body w))) = [] /\
    alerts w' = [alertDiv] /\
    (forall msg2 type2,
       map textContent (alerts (showAlert msg2 type2 w')) = [msg2]) /\
    showAlert msg None w = showAlert msg (Some "success") w.
Proof.
  intros msg type w kind alertDiv w'. subst kind alertDiv w'.
  repeat apply conj.
  - reflexivity.
  - apply remove_all_alerts_none.
  - apply showAlert_alerts.
  - intros msg2 type2. rewrite showAlert_alerts. reflexivity.
  - reflexivity.
Qed.

(** On the page with two alerts, one of them with a child and one nested,
    a call leaves the container, the card and the new alert. *)
Example showAlert_on_banner_page :
  map textContent (alerts Examples.banner_page) = ["Saved"; "Old"] /\
  body (showAlert "Done" None Examples.banner_page) =
    [ Node 2 (Examples.div "container" "")
        [ Node 4 (Examples.div "card" "") [] ];
      Node 5 (Examples.div "alert alert-success" "Done") [] ].
Proof. split; reflexivity. Qed.

End NotifierFacts.

(** ** RequestClient *)

Module RequestClientFacts.

Import Notifier RequestClient.

Section Client.

Variable fetch : string -> request_init -> js_error + response.
Variable JSON_stringify : json -> string.
Variable number_to_string : float -> string.
Variable null_property_error : js_error.
Variable to_primitive_error : js_error.

(** The wrapper passes on what the [try] block completes with. *)
Lemma makeRequest_outcome url method data w :
  fst (makeRequest fetch JSON_stringify number_to_string null_property_error
         to_primitive_error url method data w) =
  try_request fetch number_to_string null_property_error to_primitive_error
    url (request_options JSON_stringify method data).
Proof.
  unfold makeRequest.
  now destruct (try_request _ _ _ _ _ _).
Qed.

(** A rejected [fetch] is the failure. *)
Lemma try_request_transport url options e :
  fetch url options = inl e ->
  try_request fetch number_to_string null_property_error to_primitive_error
    url options = Throw e.
Proof.
  intro H. unfold try_request. now rewrite H.
Qed.

(** A response with a status outside 200 to 299 is never returned. *)
Lemma try_request_not_ok url options resp :
  fetch url options = inr resp -> ok resp = false ->
  exists e,
    try_request fetch number_to_string null_property_error to_primitive_error
      url options = Throw e.
Proof.
  intros H Hok. unfold try_request.
  rewrite H, Hok; simpl.
  destruct (decode_body resp) as [e|result]; [now exists e|].
  destruct (get_message _ result) as [e|[v|]];
    [now exists e | | eexists; reflexivity].
  destruct (to_boolean v); [|eexists; reflexivity].
  destruct (ToString _ _ v) as [e|s]; eexists; reflexivity.
Qed.

(** The failure for a response outside 200 to 299, by what its body
    decodes to. *)
Lemma try_request_not_ok_message url options resp :
  fetch url options = inr resp -> ok resp = false ->
  try_request fetch number_to_string null_property_error to_primitive_error
    url options =
  match decode_body resp with
  | inl e => Throw e
  | inr result =>
    match get_message null_property_error result with
    | inl e => Throw e
    | inr (Some v) =>
      if to_boolean v
      then match ToString number_to_string to_primitive_error v with
           | inl e => Throw e
           | inr s => Throw (new_Error s)
           end
      else Throw (new_Error (http_message resp))
    | inr None => Throw (new_Error (http_message resp))
    end
  end.
Proof.
  intros H Hok. unfold try_request.
  rewrite H, Hok; simpl.
  destruct (decode_body resp) as [e|result]; reflexivity.
Qed.

End Client.

(** C2, as the code has it. When [fetch] rejects, the failure is that
    error, with its own message.  When the response has a status outside
    200 to 299 there is exactly one failure, and its message is: the
    message of the error that decoding the body raised, if it raised one
    (and the engine's error for a [null] payload); the [message] member of
    the decoded JSON object converted to text, if there is one and it is
    truthy; and "HTTP {status}: {statusText}" otherwise.  So a JSON 400
    with {message: "bad input"} fails with "bad input", and a 500 that
    does not declare JSON and has an empty body fails with
    "HTTP 500: {statusText}". *)
Theorem makeRequest_failure_message :
  forall (fetch : string -> request_init -> js_error + response)
         (JSON_stringify : json -> string)
         (number_to_string : float -> string)
         (null_property_error to_primitive_error : js_error)
         (url : string) (method : option string) (data : option json)
         (w : world),
    let options := request_options JSON_stringify method data in
    let out := fst (makeRequest fetch JSON_stringify number_to_string
                      null_property_error to_primitive_error
                      url method data w) in
    (forall e, fetch url options = inl e -> out = Throw e) /\
    (forall resp, fetch url options = inr resp -> ok resp = false ->
       (exists e, out = Throw e) /\
       (forall e, decode_body resp = inl e -> out = Throw e) /\
       (decode_body resp = inr (FromJson JNull) ->
          out = Throw null_property_error) /\
       (forall result v s,
          decode_body resp = inr result ->
          get_message null_property_error result = inr (Some v) ->
          to_boolean v = true ->
          ToString number_to_string to_primitive_error v = inr s ->
          out = Throw (new_Error s)) /\
       (forall result v e,
          decode_body resp = inr result ->
          get_message null_property_error result = inr (Some v) ->
          to_boolean v = true ->
          ToString number_to_string to_primitive_error v = inl e ->
          out = Throw e) /\
       (forall result v,
          decode_body resp = inr result ->
          get_message null_property_error result = inr (Some v) ->
          to_boolean v = false ->
          out = Throw (new_Error (http_message resp))) /\
       (forall result,
          decode_body resp = inr result ->
          get_message null_property_error result = inr None ->
          out = Throw (new_Error (http_message resp))) /\
       (forall members m,
          declares_json resp = true ->
          json_body resp = inr (JObj members) ->
          get_member "message" members = Some (JStr m) ->
          m <> "" ->
          failure_message out = Some m) /\
       (declares_json resp = false ->
        status resp = 500%Z ->
        text_body resp = inr "" ->
        failure_message out = Some ("HTTP 500: " ++ statusText resp))).
Proof.
  intros fetch JSON_stringify number_to_string null_property_error
         to_primitive_error url method data w options out.
  subst out. rewrite makeRequest_outcome. fold options.
  split; [apply try_request_transport|].
  intros resp Hresp Hok.
  split; [eapply try_request_not_ok; eassumption|].
  rewrite (try_request_not_ok_message _ _ _ _ _ _ _ Hresp Hok).
  repeat apply conj.
  - intros e ->. reflexivity.
  - intros ->. reflexivity.
  - intros result v s -> -> -> ->. reflexivity.
  - intros result v e -> -> -> ->. reflexivity.
  - intros result v -> -> ->. reflexivity.
  - intros result -> ->. reflexivity.
  - intros members m Hj Hbody Hm Hne.
    unfold decode_body. rewrite Hj, Hbody. simpl. rewrite Hm. simpl.
    apply string_truthy_true in Hne. rewrite Hne. reflexivity.
  - intros Hj Hst Hbody.
    unfold decode_body. rewrite Hj, Hbody. simpl.
    unfold http_message. rewrite Hst. reflexivity.
Qed.

Lemma makeRequest_failure_message_witness :
  failure_message (fst (Examples.request (Examples.server Examples.bad_input)))
  = Some "bad input".
Proof.
  destruct (makeRequest_failure_message
              (Examples.server Examples.bad_input) Examples.stringify
              Examples.print_number Examples.null_error
              Examples.primitive_error "/api/projects" None None
              Examples.banner_page) as [_ H].
  destruct (H Examples.bad_input eq_refl eq_refl)
    as (_ & _ & _ & _ & _ & _ & _ & Hjson & _).
  apply (Hjson [("message", JStr "bad input")] "bad input").
  - reflexivity.
  - reflexivity.
  - reflexivity.
  - discriminate.
Defined.

(** C2, as the specification words it, fails: a 500 response that declares
    JSON and carries an empty body has no [message] field, so the policy
    asks for "HTTP 500: Internal Server Error"; the failure carries the
    message of the decoding error instead.  And a payload whose [message]
    is the empty string fails with the synthesized text, not with that
    field. *)
Lemma makeRequest_decode_error_message :
  failure_message (fst (Examples.request (Examples.server Examples.empty_json_500)))
    = Some "Unexpected end of JSON input" /\
  policy_message (inr Examples.empty_json_500)
    = "HTTP 500: Internal Server Error" /\
  failure_message (fst (Examples.request (Examples.server Examples.empty_message_400)))
    = Some "HTTP 400: Bad Request" /\
  policy_message (inr Examples.empty_message_400) = "".
Proof. repeat split; reflexivity. Qed.

(** C3. Every failure of [makeRequest] goes both ways: a rejected [fetch]
    and a response with a status outside 200 to 299 end in a throw; with
    every throw the page is the one that a single [showAlert] of the
    thrown error's message with kind [error] leaves (after the console
    line), so that alert is the only one on display and one timer was
    added; the thrown error is the one caught; and a return leaves the
    page as it was, with no alert raised. *)
Theorem makeRequest_dual_channel :
  forall (fetch : string -> request_init -> js_error + response)
         (JSON_stringify : json -> string)
         (number_to_string : float -> string)
         (null_property_error to_primitive_error : js_error)
         (url : string) (method : option string) (data : option json)
         (w : world),
    let options := request_options JSON_stringify method data in
    let r := makeRequest fetch JSON_stringify number_to_string
               null_property_error to_primitive_error url method data w in
    (forall e, fetch url options = inl e -> fst r = Throw e) /\
    (forall resp, fetch url options = inr resp -> ok resp = false ->
       exists e, fst r = Throw e) /\
    (forall e, fst r = Throw e ->
       try_request fetch number_to_string null_property_error
         to_primitive_error url options = Throw e /\
       snd r = showAlert (message e) (Some "error")
                 (console_error "Request failed:" e w) /\
       alerts (snd r) =
         [ {| el_id := None; className := "alert alert-error";
              required := false; value := ""; textContent := message e;
              style := [] |} ] /\
       timers (snd r) =
         (timers w ++ [(4000%Z, RemoveIfAttached (next_uid w))])%list) /\
    (forall v, fst r = Return v -> snd r = w).
Proof.
  intros fetch JSON_stringify number_to_string null_property_error
         to_primitive_error url method data w options r.
  assert (Hout : fst r = try_request fetch number_to_string
                           null_property_error to_primitive_error url options)
    by apply makeRequest_outcome.
  repeat apply conj.
  - intros e He. rewrite Hout. now apply try_request_transport.
  - intros resp Hresp Hok. rewrite Hout.
    eapply try_request_not_ok; eassumption.
  - intros e He. rewrite Hout in He. subst r. unfold makeRequest.
    fold options. rewrite He. cbn [snd].
    repeat apply conj; try reflexivity.
    apply (NotifierFacts.showAlert_alerts (message e) (Some "error")).
  - intros v Hv. rewrite Hout in Hv. subst r. unfold makeRequest.
    fold options. rewrite Hv. reflexivity.
Qed.

Lemma makeRequest_dual_channel_witness :
  map textContent (alerts (snd (Examples.request Examples.offline)))
  = ["Failed to fetch"].
Proof.
  destruct (makeRequest_dual_channel
              Examples.offline Examples.stringify Examples.print_number
              Examples.null_error Examples.primitive_error "/api/projects"
              None None Examples.banner_page) as (_ & _ & H & _).
  destruct (H {| name := "TypeError"; message := "Failed to fetch" |} eq_refl)
    as (_ & _ & Halerts & _).
  fold (Examples.request Examples.offline) in Halerts.
  rewrite Halerts. reflexivity.
Defined.

End RequestClientFacts.

(** * Further properties of main.js *)

(** ** Formatter: the edges of the buckets *)

Module FormatterEdges.

Import Formatter.

(** X1. A non-empty timestamp that [Date] cannot parse is not caught by
    the sentinel: every comparison with the day count is false and the
    answer is "NaN years ago". *)
Theorem formatRelativeTime_invalid_date :
  forall (Date_parse : string -> option Z) (now : Z) (s : string),
    s <> "" ->
    Date_parse s = None ->
    formatRelativeTime Date_parse now (Str s) = "NaN years ago".
Proof.
  intros Date_parse now s Hs Hp.
  unfold formatRelativeTime; simpl.
  apply string_truthy_true in Hs. rewrite Hs, Hp. reflexivity.
Qed.

Lemma formatRelativeTime_invalid_date_witness :
  formatRelativeTime Examples.parse 1704067200000 (Str "next week")
  = "NaN years ago".
Proof.
  apply (formatRelativeTime_invalid_date Examples.parse 1704067200000
           "next week").
  - discriminate.
  - reflexivity.
Defined.

(** X2. The count printed with a unit is never zero: from 7 to 29 days it
    is 1 to 4 weeks, from 30 to 364 days it is 1 to 12 months (so 360 to
    364 days read "12 months ago"), and from 365 days on it is the number
    of whole 365-day years, at least 1. *)
Theorem formatRelativeTime_counts :
  forall (Date_parse : string -> option Z) (now : Z) (s : string) (d : Z),
    s <> "" ->
    Date_parse s = Some d ->
    let N := ((now - d) / ms_per_day)%Z in
    let r := formatRelativeTime Date_parse now (Str s) in
    ((7 <= N <= 29)%Z ->
       exists k, (1 <= k <= 4)%Z /\ r = Z_to_string k ++ " weeks ago") /\
    ((30 <= N <= 364)%Z ->
       exists k, (1 <= k <= 12)%Z /\ r = Z_to_string k ++ " months ago") /\
    ((360 <= N <= 364)%Z -> r = "12 months ago") /\
    ((365 <= N)%Z ->
       exists k, (1 <= k)%Z /\ (365 * k <= N < 365 * (k + 1))%Z /\
                 r = Z_to_string k ++ " years ago").
Proof.
  intros Date_parse now s d Hs Hd N r. subst r.
  rewrite (FormatterFacts.formatRelativeTime_days Date_parse now s d Hs Hd).
  fold N. cbv zeta. clearbody N. repeat apply conj; intro H.
  - exists (N / 7)%Z. split.
    + split; [apply Z.div_le_lower_bound; lia|].
      assert (N / 7 < 5)%Z by (apply Z.div_lt_upper_bound; lia). lia.
    + FormatterFacts.bucket.
  - exists (N / 30)%Z. split.
    + split; [apply Z.div_le_lower_bound; lia|].
      assert (N / 30 < 13)%Z by (apply Z.div_lt_upper_bound; lia). lia.
    + FormatterFacts.bucket.
  - assert (E : (N / 30 = 12)%Z).
    { assert (12 <= N / 30)%Z by (apply Z.div_le_lower_bound; lia).
      assert (N / 30 < 13)%Z by (apply Z.div_lt_upper_bound; lia). lia. }
    FormatterFacts.bucket. rewrite E. reflexivity.
  - exists (N / 365)%Z. repeat split.
    + apply Z.div_le_lower_bound; lia.
    + apply Z.mul_div_le; lia.
    + pose proof (Z.mul_succ_div_gt N 365). lia.
    + FormatterFacts.bucket.
Qed.

Lemma formatRelativeTime_counts_witness :
  formatRelativeTime Examples.parse (1704067200000 + 362 * 86400000)
    (Str Examples.new_year) = "12 months ago".
Proof.
  destruct (formatRelativeTime_counts Examples.parse
              (1704067200000 + 362 * 86400000) Examples.new_year
              1704067200000) as (_ & _ & H & _).
  - discriminate.
  - reflexivity.
  - apply H. vm_compute. split; discriminate.
Defined.

End FormatterEdges.

(** ** Validator: how the two passes compose *)

Lemma style_set_twice (prop v w : string) (st : style_decl) :
  style_set prop v (style_set prop w st) = style_set prop v st.
Proof.
  induction st as [|[p u] st IH]; simpl.
  - now rewrite String.eqb_refl.
  - destruct (String.eqb_spec p prop) as [E|E]; simpl.
    + subst p. now rewrite String.eqb_refl.
    + apply String.eqb_neq in E. rewrite E. now rewrite IH.
Qed.

Lemma set_style_twice (prop v w : string) (e : element) :
  set_style prop v (set_style prop w e) = set_style prop v e.
Proof. unfold set_style; simpl. now rewrite style_set_twice. Qed.

(** A string of one-byte white space trims to nothing. *)
Lemma trim_blank (s : string) :
  forallb ws1 (list_ascii_of_string s) = true -> trim s = "".
Proof.
  intro H. unfold trim, trimStart.
  assert (E : strip ws1 ws2 ws3 s = "").
  { induction s as [|a s IH]; [reflexivity|].
    simpl in H. apply andb_true_iff in H as [Ha Hs].
    simpl. rewrite Ha. exact (IH Hs). }
  rewrite E. reflexivity.
Qed.

Lemma forallb_map_ext {X Y : Type} (p : Y -> bool) (q : X -> bool)
    (g : X -> Y) (l : list X) :
  (forall x, p (g x) = q x) -> forallb p (map g l) = forallb q l.
Proof.
  intro H. induction l as [|x l IH]; simpl; [reflexivity|].
  now rewrite H, IH.
Qed.

Module ValidatorLaws.

Import Validator ValidatorSteps.

Lemma mark_fields (e : element) :
  el_id (mark e) = el_id e /\ className (mark e) = className e /\
  required (mark e) = required e /\ value (mark e) = value e /\
  textContent (mark e) = textContent e.
Proof.
  unfold mark.
  destruct (required e) eqn:Hr; [|now rewrite Hr].
  destruct (string_truthy (trim (value e))); simpl; now rewrite Hr.
Qed.

Lemma mark_twice (e : element) : mark (mark e) = mark e.
Proof.
  unfold mark at 1.
  destruct (mark_fields e) as (_ & _ & Hr & Hv & _). rewrite Hr, Hv.
  unfold mark.
  destruct (required e); [|reflexivity].
  destruct (string_truthy (trim (value e))); apply set_style_twice.
Qed.

Lemma filled_mark (e : element) : filled (mark e) = filled e.
Proof.
  unfold filled. destruct (mark_fields e) as (_ & _ & Hr & Hv & _).
  now rewrite Hr, Hv.
Qed.

Lemma filled_clear (e : element) : filled (clear e) = filled e.
Proof. unfold clear. now destruct (has_class "form-control" e). Qed.

Lemma clear_twice (e : element) : clear (clear e) = clear e.
Proof.
  unfold clear. destruct (has_class "form-control" e) eqn:Hc.
  - change (has_class "form-control"
              (set_style "border-color" "#dfe1e6" e))
      with (has_class "form-control" e).
    rewrite Hc. apply set_style_twice.
  - now rewrite Hc.
Qed.

(** X3. Validating a form a second time changes nothing: the answer is
    the same and every field stays as the first pass left it. *)
Theorem validateForm_idempotent :
  forall formElement : form,
    validateForm (snd (validateForm formElement)) = validateForm formElement.
Proof.
  intro formElement. unfold validateForm.
  rewrite !ValidatorFacts.forEach_required_map. simpl snd.
  rewrite map_map. f_equal.
  - f_equal. apply forallb_map_ext. intro e. apply filled_mark.
  - apply map_ext. intro e. apply mark_twice.
Qed.

(** X4. [validateForm] writes the border colour and nothing else: every
    field keeps its place, id, class, required mark, value and text, and
    every style property outside the border family (a name that does not
    start with "border", [all] apart). *)
Theorem validateForm_preserves_fields :
  forall (formElement : form) (i : nat) (f : element) (prop : string),
    nth_error formElement i = Some f ->
    StyleFamilies.outside_family "border" prop = true ->
    exists f', nth_error (snd (validateForm formElement)) i = Some f' /\
      el_id f' = el_id f /\ className f' = className f /\
      required f' = required f /\ value f' = value f /\
      textContent f' = textContent f /\
      style_get prop (style f') = style_get prop (style f).
Proof.
  intros formElement i f prop Hi Hp.
  unfold validateForm. rewrite ValidatorFacts.forEach_required_map. simpl snd.
  exists (mark f). split; [now rewrite nth_error_map, Hi|].
  destruct (mark_fields f) as (H1 & H2 & H3 & H4 & H5).
  repeat (split; [assumption|]).
  assert (Hne : "border-color" <> prop).
  { intro E. subst prop. discriminate Hp. }
  unfold mark. destruct (required f); [|reflexivity].
  destruct (string_truthy (trim (value f))); simpl;
    apply style_get_set_other; congruence.
Qed.

Lemma validateForm_preserves_fields_witness :
  exists f', nth_error (snd (validateForm Examples.signup)) 1 = Some f' /\
             value f' = "Ada".
Proof.
  destruct (validateForm_preserves_fields Examples.signup 1%nat
              (Examples.input "form-control" true "Ada") "display" eq_refl)
    as (f' & Hn & _ & _ & _ & Hv & _).
  - reflexivity.
  - exists f'. split; [exact Hn | exact Hv].
Defined.

(** X5. A required field whose value is made of spaces, tabs and line
    breaks only is an empty field: the form does not validate. *)
Theorem validateForm_blank_value :
  forall (formElement : form) (f : element),
    In f formElement ->
    required f = true ->
    forallb ws1 (list_ascii_of_string (value f)) = true ->
    fst (validateForm formElement) = false.
Proof.
  intros formElement f Hin Hreq Hblank.
  unfold validateForm. rewrite ValidatorFacts.forEach_required_map. simpl.
  destruct (forallb filled formElement) eqn:Hall; [|reflexivity].
  rewrite forallb_forall in Hall. specialize (Hall f Hin).
  unfold filled in Hall. rewrite Hreq, (trim_blank _ Hblank) in Hall.
  discriminate Hall.
Qed.

Lemma validateForm_blank_value_witness :
  fst (validateForm Examples.signup) = false.
Proof.
  apply (validateForm_blank_value Examples.signup
           (Examples.input "form-control" true "   ")).
  - left; reflexivity.
  - reflexivity.
  - reflexivity.
Defined.

(** X6. When every required field of the form carries the [form-control]
    class, [resetFormValidation] after [validateForm] leaves no required
    field with the error colour: each has the plain colour. *)
Theorem reset_after_validate :
  forall formElement : form,
    (forall f, In f formElement -> required f = true ->
               has_class "form-control" f = true) ->
    forall f', In f' (resetFormValidation (snd (validateForm formElement))) ->
               required f' = true -> borderColor f' = "#dfe1e6".
Proof.
  intros formElement H f' Hin Hreq.
  unfold validateForm in Hin.
  rewrite ValidatorFacts.forEach_required_map in Hin. simpl snd in Hin.
  unfold resetFormValidation in Hin. rewrite map_map in Hin.
  apply in_map_iff in Hin as (f & <- & Hf).
  destruct (mark_fields f) as (_ & Hc & Hr & _).
  assert (Hrf : required f = true).
  { destruct (has_class "form-control" (mark f)); simpl in Hreq; congruence. }
  assert (Hcls : has_class "form-control" (mark f) = true).
  { unfold has_class, classList. rewrite Hc. apply (H f Hf Hrf). }
  rewrite Hcls. apply ValidatorFacts.borderColor_set.
Qed.

Lemma reset_after_validate_witness :
  borderColor
    (set_style "border-color" "#dfe1e6"
       (set_style "border-color" "#de350b"
          (Examples.input "form-control" true "   "))) = "#dfe1e6".
Proof.
  apply (reset_after_validate Examples.signup).
  - intros f [<- | [<- | [<- | []]]] _; reflexivity.
  - left; reflexivity.
  - reflexivity.
Defined.

(** X7. [resetFormValidation] is idempotent and does not change what
    [validateForm] answers. *)
Theorem resetFormValidation_idempotent :
  forall formElement : form,
    resetFormValidation (resetFormValidation formElement)
      = resetFormValidation formElement /\
    fst (validateForm (resetFormValidation formElement))
      = fst (validateForm formElement).
Proof.
  intro formElement. split.
  - unfold resetFormValidation. rewrite map_map.
    apply map_ext. intro e. apply clear_twice.
  - unfold validateForm. rewrite !ValidatorFacts.forEach_required_map. simpl.
    unfold resetFormValidation. apply forallb_map_ext.
    intro e. apply filled_clear.
Qed.

End ValidatorLaws.

(** ** ModalController: what the events keep *)

Lemma map_update_at {X : Type} (g : element -> X) (f : element -> element)
    (i : nat) (l : list element) :
  (forall e, g (f e) = g e) -> map g (update_at i f l) = map g l.
Proof.
  intro H. revert i.
  induction l as [|e l IH]; intros [|i]; simpl; try reflexivity.
  - now rewrite H.
  - now rewrite IH.
Qed.

Lemma update_at_twice (i : nat) (f g : element -> element) (l : list element) :
  update_at i f (update_at i g l) = update_at i (fun e => f (g e)) l.
Proof.
  revert i. induction l as [|e l IH]; intros [|i]; simpl; try reflexivity.
  now rewrite IH.
Qed.

Lemma update_at_ext (i : nat) (f g : element -> element) (l : list element) :
  (forall e, f e = g e) -> update_at i f l = update_at i g l.
Proof.
  intro H. revert i.
  induction l as [|e l IH]; intros [|i]; simpl; try reflexivity.
  - now rewrite H.
  - now rewrite IH.
Qed.

Module ModalLaws.

Import Modal Visibility.

(** Any reading of an element that a write to [display] does not change
    is the same after an event as before. *)
Lemma step_keeps {X : Type} (g : element -> X) (p : page) (ev : event) :
  (forall v e, g (set_style "display" v e) = g e) ->
  map g (elements (step p ev)) = map g (elements p).
Proof.
  intro H. destruct ev as [id|id|t|k]; simpl.
  - unfold showModal. destruct (getElementById (elements p) id); [|reflexivity].
    simpl. now apply map_update_at.
  - unfold hideModal. destruct (getElementById (elements p) id); [|reflexivity].
    simpl. now apply map_update_at.
  - unfold window_onclick. destruct (nth_error (elements p) t); [|reflexivity].
    destruct (contains (classList e) "modal"); [|reflexivity].
    simpl. now apply map_update_at.
  - unfold document_keydown. destruct (k =? "Escape")%string; [|reflexivity].
    simpl. rewrite map_map. apply map_ext. intro e.
    now destruct (open_modal e).
Qed.

Lemma run_keeps {X : Type} (g : element -> X) (evs : list event) (p : page) :
  (forall v e, g (set_style "display" v e) = g e) ->
  map g (elements (run p evs)) = map g (elements p).
Proof.
  intro H. revert p. induction evs as [|ev evs IH]; intro p; [reflexivity|].
  change (run p (ev :: evs)) with (run (step p ev) evs).
  rewrite IH. now apply step_keeps.
Qed.

Lemma step_body_keeps (prop : string) (p : page) (ev : event) :
  prop <> "overflow" ->
  style_get prop (body_style (step p ev)) = style_get prop (body_style p).
Proof.
  intro H. destruct ev as [id|id|t|k]; simpl.
  - unfold showModal. destruct (getElementById (elements p) id); [|reflexivity].
    simpl. apply style_get_set_other. congruence.
  - unfold hideModal. destruct (getElementById (elements p) id); [|reflexivity].
    simpl. apply style_get_set_other. congruence.
  - unfold window_onclick. destruct (nth_error (elements p) t); [|reflexivity].
    destruct (contains (classList e) "modal"); [|reflexivity].
    simpl. apply style_get_set_other. congruence.
  - unfold document_keydown. destruct (k =? "Escape")%string; [|reflexivity].
    simpl. apply style_get_set_other. congruence.
Qed.

(** X8. No run of show, hide, backdrop click and key press adds, removes
    or reorders an element, or changes an id, a class, a value or a text:
    on the elements the events write the [display] property only, and on
    [body] the [overflow] property only, so every element keeps its style
    properties other than [display] and [body] keeps those outside the
    overflow family (a name that does not start with "overflow"); [all],
    which reads every property, is left out on both. *)
Theorem run_writes_display_and_overflow :
  forall (p : page) (evs : list event),
    let p' := run p evs in
    map el_id (elements p') = map el_id (elements p) /\
    map className (elements p') = map className (elements p) /\
    map value (elements p') = map value (elements p) /\
    map textContent (elements p') = map textContent (elements p) /\
    (forall prop, StyleFamilies.outside_family "display" prop = true ->
       map (fun e => style_get prop (style e)) (elements p')
       = map (fun e => style_get prop (style e)) (elements p)) /\
    (forall prop, StyleFamilies.outside_family "overflow" prop = true ->
       style_get prop (body_style p') = style_get prop (body_style p)).
Proof.
  intros p evs p'. subst p'.
  repeat apply conj; try (apply run_keeps; reflexivity).
  - intros prop Hp. apply run_keeps. intros v e. simpl.
    apply style_get_set_other. intro E. subst prop. discriminate Hp.
  - intros prop Hp.
    assert (Hne : prop <> "overflow") by (intro E; subst prop; discriminate Hp).
    clear Hp. rename Hne into Hp. revert p.
    induction evs as [|ev evs IH]; intro p; [reflexivity|].
    change (run p (ev :: evs)) with (run (step p ev) evs).
    rewrite IH. now apply step_body_keeps.
Qed.

Lemma run_writes_display_and_overflow_witness :
  style_get "margin"
    (body_style (run MoreExamples.twins
                   [ShowModal "panel"; Keydown "Escape"; Click 2])) = "0".
Proof.
  destruct (run_writes_display_and_overflow MoreExamples.twins
              [ShowModal "panel"; Keydown "Escape"; Click 2])
    as (_ & _ & _ & _ & _ & H).
  rewrite H; reflexivity.
Defined.

Lemma getElementById_absent (doc : list element) (id : string) :
  (forall e, In e doc -> el_id e <> Some id) -> getElementById doc id = None.
Proof.
  induction doc as [|e doc IH]; intro H; [reflexivity|]. simpl.
  assert (He : el_id e <> Some id) by (apply H; now left).
  rewrite IH by (intros e' Hin; apply H; now right).
  destruct (el_id e) as [x|]; [|reflexivity].
  destruct (String.eqb_spec x id); [|reflexivity].
  subst x. now contradiction He.
Qed.

(** X9. An id that no element carries is no error: [showModal],
    [hideModal] and [toggleVisibility] leave the page, scroll-lock
    included, exactly as it was. *)
Theorem missing_id_changes_nothing :
  forall (p : page) (id : string),
    (forall e, In e (elements p) -> el_id e <> Some id) ->
    showModal id p = p /\ hideModal id p = p /\ toggleVisibility id p = p.
Proof.
  intros p id H. apply getElementById_absent in H.
  unfold showModal, hideModal, toggleVisibility. rewrite H. auto.
Qed.

Lemma missing_id_changes_nothing_witness :
  showModal "settings" Examples.two_modals = Examples.two_modals.
Proof.
  apply (missing_id_changes_nothing Examples.two_modals "settings").
  intros e [<- | [<- | [<- | []]]]; discriminate.
Defined.

Lemma getElementById_first (doc : list element) (id : string) (i : nat) :
  getElementById doc id = Some i ->
  forall j e, (j < i)%nat -> nth_error doc j = Some e -> el_id e <> Some id.
Proof.
  revert i. induction doc as [|e0 doc IH]; intros i H j e Hj Hn; simpl in H.
  - discriminate H.
  - assert (Hrest : option_map S (getElementById doc id) = Some i ->
                    el_id e0 <> Some id -> el_id e <> Some id).
    { intros Hopt He0.
      destruct (getElementById doc id) as [k|] eqn:Hk; [|discriminate Hopt].
      injection Hopt as <-.
      destruct j as [|j]; simpl in Hn.
      - injection Hn as <-. exact He0.
      - apply (IH k eq_refl j e); [lia | exact Hn]. }
    destruct (el_id e0) as [x|] eqn:Hid.
    + destruct (String.eqb_spec x id) as [E|E].
      * injection H as <-. lia.
      * apply (Hrest H). congruence.
    + apply (Hrest H). discriminate.
Qed.

(** X10. When an id is repeated, the modal functions act on the first
    element in tree order that carries it and on no other: every element
    before it lacks the id, and every other element, a later one with the
    same id included, is left as it was by show, hide and toggle. *)
Theorem repeated_id_first_only :
  forall (p : page) (id : string) (i : nat),
    getElementById (elements p) id = Some i ->
    (exists e, nth_error (elements p) i = Some e /\ el_id e = Some id) /\
    (forall j e, (j < i)%nat -> nth_error (elements p) j = Some e ->
                 el_id e <> Some id) /\
    (forall j, j <> i ->
       nth_error (elements (showModal id p)) j = nth_error (elements p) j /\
       nth_error (elements (hideModal id p)) j = nth_error (elements p) j /\
       nth_error (elements (toggleVisibility id p)) j = nth_error (elements p) j).
Proof.
  intros p id i Hi. repeat apply conj.
  - exact (ModalFacts.getElementById_nth _ _ _ Hi).
  - exact (getElementById_first _ _ _ Hi).
  - intros j Hj. unfold showModal, hideModal, toggleVisibility. rewrite Hi.
    simpl. rewrite !update_at_other by congruence. auto.
Qed.

Lemma repeated_id_first_only_witness :
  option_map Modal.display
    (nth_error (elements (hideModal "panel" MoreExamples.twins)) 2)
  = Some "block".
Proof.
  destruct (repeated_id_first_only MoreExamples.twins "panel" 1%nat eq_refl)
    as (_ & _ & H).
  destruct (H 2%nat) as (_ & Hh & _); [discriminate|].
  rewrite Hh. reflexivity.
Defined.

End ModalLaws.

(** ** [toggleVisibility], and the last write to a modal *)

Module VisibilityLaws.

Import Modal Visibility.

Lemma toggleVisibility_present (id : string) (i : nat) (p : page) :
  getElementById (elements p) id = Some i ->
  toggleVisibility id p =
  {| elements :=
       update_at i
         (fun e => set_style "display"
                     (if (display e =? "none")%string then "block" else "none") e)
         (elements p);
     body_style := body_style p |}.
Proof. intro H. unfold toggleVisibility. now rewrite H. Qed.

Lemma display_of_update (id : string) (i : nat) (p : page)
    (f : element -> element) (e : element) (st : style_decl) :
  getElementById (elements p) id = Some i ->
  nth_error (elements p) i = Some e ->
  (forall x, el_id (f x) = el_id x) ->
  display_of id {| elements := update_at i f (elements p); body_style := st |}
  = Some (display (f e)).
Proof.
  intros Hi He Hf. unfold display_of. simpl.
  rewrite (ModalFacts.getElementById_update _ _ _ _ Hf), Hi.
  now rewrite update_at_same, He.
Qed.

Lemma display_of_present (id : string) (p : page) (d : string) :
  display_of id p = Some d ->
  exists i e, getElementById (elements p) id = Some i /\
              nth_error (elements p) i = Some e /\ display e = d.
Proof.
  unfold display_of.
  destruct (getElementById (elements p) id) as [i|] eqn:Hi; [|discriminate].
  destruct (nth_error (elements p) i) as [e|] eqn:He; [|discriminate].
  simpl. intro H. injection H as <-. now exists i, e.
Qed.

(** X11. [toggleVisibility] on a present element writes "block" when the
    inline display is "none" and "none" in every other case, and never
    touches the style of [body].  Two toggles therefore give back an
    inline display of "none" or "block", but turn any other one, the
    unset display of an element hidden by a style sheet included, into
    "block". *)
Theorem toggleVisibility_twice :
  forall (p : page) (id d : string),
    display_of id p = Some d ->
    let once := toggleVisibility id p in
    let twice := toggleVisibility id once in
    display_of id once = Some (if (d =? "none")%string then "block" else "none") /\
    display_of id twice = Some (if (d =? "none")%string then "none" else "block") /\
    body_style once = body_style p /\
    body_style twice = body_style p /\
    (d = "none" \/ d = "block" -> display_of id twice = Some d) /\
    (d <> "none" -> d <> "block" -> display_of id twice <> Some d).
Proof.
  intros p id d Hd once twice.
  destruct (display_of_present id p d Hd) as (i & e & Hi & He & Hde).
  assert (H1 : display_of id once
               = Some (if (d =? "none")%string then "block" else "none")).
  { subst once. rewrite (toggleVisibility_present id i p Hi).
    rewrite (display_of_update id i p _ e _ Hi He) by (intros; reflexivity).
    rewrite ModalFacts.display_set, Hde. reflexivity. }
  assert (H2 : display_of id twice
               = Some (if (d =? "none")%string then "none" else "block")).
  { destruct (display_of_present id once _ H1) as (i1 & e1 & Hi1 & He1 & Hd1).
    subst twice. rewrite (toggleVisibility_present id i1 once Hi1).
    rewrite (display_of_update id i1 once _ e1 _ Hi1 He1) by (intros; reflexivity).
    rewrite ModalFacts.display_set, Hd1.
    now destruct (d =? "none")%string. }
  assert (Hb1 : body_style once = body_style p).
  { subst once. now rewrite (toggleVisibility_present id i p Hi). }
  assert (Hb2 : body_style twice = body_style p).
  { rewrite <- Hb1. subst twice. unfold toggleVisibility.
    now destruct (getElementById (elements once) id). }
  repeat apply conj; try assumption.
  - intros [-> | ->]; rewrite H2; reflexivity.
  - intros Hn Hb. rewrite H2. apply String.eqb_neq in Hn. rewrite Hn.
    congruence.
Qed.

Lemma toggleVisibility_twice_witness :
  display_of "panel"
    (toggleVisibility "panel" (toggleVisibility "panel" MoreExamples.twins))
  = Some "block".
Proof.
  destruct (toggleVisibility_twice MoreExamples.twins "panel" "" eq_refl)
    as (_ & H & _).
  exact H.
Defined.

(** X12. [toggleVisibility] is no substitute for [hideModal]: toggling a
    modal that [showModal] has just shown hides it and leaves scroll
    locked. *)
Theorem toggle_after_show_keeps_lock :
  forall (p : page) (id : string) (i : nat),
    getElementById (elements p) id = Some i ->
    let p' := toggleVisibility id (showModal id p) in
    display_of id p' = Some "none" /\ scroll_locked p' = true.
Proof.
  intros p id i Hi p'.
  destruct (ModalFacts.getElementById_nth _ _ _ Hi) as (e & He & _).
  assert (Hshown : display_of id (showModal id p) = Some "block").
  { rewrite (ModalFacts.showModal_present id i p Hi).
    rewrite (display_of_update id i p _ e _ Hi He) by (intros; reflexivity).
    now rewrite ModalFacts.display_set. }
  subst p'. split.
  - destruct (display_of_present _ _ _ Hshown) as (i1 & e1 & Hi1 & He1 & Hd1).
    rewrite (toggleVisibility_present id i1 _ Hi1).
    rewrite (display_of_update id i1 _ _ e1 _ Hi1 He1) by (intros; reflexivity).
    now rewrite ModalFacts.display_set, Hd1.
  - unfold toggleVisibility.
    destruct (getElementById (elements (showModal id p)) id);
      rewrite (ModalFacts.showModal_present id i p Hi);
      apply ModalFacts.scroll_locked_set.
Qed.

Lemma toggle_after_show_keeps_lock_witness :
  scroll_locked (toggleVisibility "a" (showModal "a" Examples.two_modals))
  = true.
Proof.
  destruct (toggle_after_show_keeps_lock Examples.two_modals "a" 0%nat eq_refl)
    as [_ H].
  exact H.
Defined.

(** X13. For a present modal only the last of show and hide counts:
    showing after hiding is showing, hiding after showing is hiding, and
    each of the two is idempotent. *)
Theorem last_of_show_and_hide :
  forall (p : page) (id : string) (i : nat),
    getElementById (elements p) id = Some i ->
    showModal id (hideModal id p) = showModal id p /\
    hideModal id (showModal id p) = hideModal id p /\
    showModal id (showModal id p) = showModal id p /\
    hideModal id (hideModal id p) = hideModal id p.
Proof.
  intros p id i Hi.
  assert (Hs : getElementById (elements (showModal id p)) id = Some i).
  { rewrite (ModalFacts.showModal_present id i p Hi). simpl.
    now rewrite ModalFacts.getElementById_set_style. }
  assert (Hh : getElementById (elements (hideModal id p)) id = Some i).
  { rewrite (ModalFacts.hideModal_present id i p Hi). simpl.
    now rewrite ModalFacts.getElementById_set_style. }
  repeat apply conj.
  - rewrite (ModalFacts.showModal_present id i _ Hh).
    rewrite (ModalFacts.hideModal_present id i p Hi),
            (ModalFacts.showModal_present id i p Hi). simpl.
    rewrite update_at_twice, style_set_twice. f_equal.
    apply update_at_ext. intro e. apply set_style_twice.
  - rewrite (ModalFacts.hideModal_present id i _ Hs).
    rewrite (ModalFacts.showModal_present id i p Hi),
            (ModalFacts.hideModal_present id i p Hi). simpl.
    rewrite update_at_twice, style_set_twice. f_equal.
    apply update_at_ext. intro e. apply set_style_twice.
  - rewrite (ModalFacts.showModal_present id i _ Hs).
    rewrite (ModalFacts.showModal_present id i p Hi). simpl.
    rewrite update_at_twice, style_set_twice. f_equal.
    apply update_at_ext. intro e. apply set_style_twice.
  - rewrite (ModalFacts.hideModal_present id i _ Hh).
    rewrite (ModalFacts.hideModal_present id i p Hi). simpl.
    rewrite update_at_twice, style_set_twice. f_equal.
    apply update_at_ext. intro e. apply set_style_twice.
Qed.

Lemma last_of_show_and_hide_witness :
  hideModal "a" (showModal "a" Examples.two_modals)
  = hideModal "a" Examples.two_modals.
Proof.
  destruct (last_of_show_and_hide Examples.two_modals "a" 0%nat eq_refl)
    as (_ & H & _).
  exact H.
Defined.

End VisibilityLaws.

(** ** Notifier: the life of an alert *)

Module NotifierLifecycle.

Import Notifier Identity.

Lemma node_uids_Node (u : nat) (e : element) (cs : list node) :
  node_uids (Node u e cs) = u :: forest_uids cs.
Proof. reflexivity. Qed.

Lemma detach_Node (uid u : nat) (e : element) (cs : list node) :
  detach uid (Node u e cs) = Node u e (detach_all uid cs).
Proof.
  simpl. f_equal. induction cs as [|c cs IH]; [reflexivity|].
  simpl. now rewrite IH.
Qed.

Lemma forest_uids_app (l r : list node) :
  forest_uids (l ++ r) = (forest_uids l ++ forest_uids r)%list.
Proof. apply flat_map_app. Qed.

(** Removing alerts brings no identity into the page. *)
Lemma remove_alerts_uids (n : node) :
  incl (node_uids (remove_alerts n)) (node_uids n).
Proof.
  induction n as [u e cs IH] using NotifierFacts.node_children_ind.
  rewrite NotifierFacts.remove_alerts_Node, !node_uids_Node.
  apply incl_cons; [now left|]. apply incl_tl.
  induction IH as [|c cs Hc _ IHcs]; [apply incl_refl|].
  cbn [remove_all_alerts].
  change (forest_uids (c :: cs)) with (node_uids c ++ forest_uids cs)%list.
  destruct (has_class "alert" (node_el c)).
  - now apply incl_appr.
  - change (forest_uids (remove_alerts c :: remove_all_alerts cs))
      with (node_uids (remove_alerts c) ++ forest_uids (remove_all_alerts cs))%list.
    apply incl_app; [now apply incl_appl | now apply incl_appr].
Qed.

Lemma remove_all_alerts_uids (forest : list node) :
  incl (forest_uids (remove_all_alerts forest)) (forest_uids forest).
Proof.
  induction forest as [|c cs IH]; [apply incl_refl|].
  cbn [remove_all_alerts].
  change (forest_uids (c :: cs)) with (node_uids c ++ forest_uids cs)%list.
  destruct (has_class "alert" (node_el c)).
  - now apply incl_appr.
  - change (forest_uids (remove_alerts c :: remove_all_alerts cs))
      with (node_uids (remove_alerts c) ++ forest_uids (remove_all_alerts cs))%list.
    apply incl_app; [apply incl_appl, remove_alerts_uids | now apply incl_appr].
Qed.

(** Detaching a node that is not on the page changes nothing. *)
Lemma detach_absent (uid : nat) (n : node) :
  ~ In uid (node_uids n) -> detach uid n = n.
Proof.
  induction n as [u e cs IH] using NotifierFacts.node_children_ind.
  rewrite node_uids_Node, detach_Node. intro H. f_equal.
  assert (Hcs : ~ In uid (forest_uids cs)) by (intro; apply H; now right).
  clear H. induction IH as [|c cs Hc _ IHcs]; [reflexivity|].
  change (forest_uids (c :: cs)) with (node_uids c ++ forest_uids cs)%list in Hcs.
  cbn [detach_all].
  assert (Hu : node_uid c <> uid).
  { intro E. apply Hcs. apply in_or_app. left. destruct c; simpl in *.
    now left. }
  apply Nat.eqb_neq in Hu. rewrite Hu.
  rewrite Hc by (intro; apply Hcs; apply in_or_app; now left).
  rewrite IHcs by (intro; apply Hcs; apply in_or_app; now right).
  reflexivity.
Qed.

Lemma detach_all_absent (uid : nat) (forest : list node) :
  ~ In uid (forest_uids forest) -> detach_all uid forest = forest.
Proof.
  induction forest as [|c cs IH]; intro H; [reflexivity|].
  change (forest_uids (c :: cs)) with (node_uids c ++ forest_uids cs)%list in H.
  cbn [detach_all].
  assert (Hu : node_uid c <> uid).
  { intro E. apply H. apply in_or_app. left. destruct c; simpl in *. now left. }
  apply Nat.eqb_neq in Hu. rewrite Hu.
  rewrite detach_absent by (intro; apply H; apply in_or_app; now left).
  rewrite IH by (intro; apply H; apply in_or_app; now right).
  reflexivity.
Qed.

Lemma detach_all_app (uid : nat) (l r : list node) :
  detach_all uid (l ++ r) = (detach_all uid l ++ detach_all uid r)%list.
Proof.
  induction l as [|c l IH]; [reflexivity|]. simpl.
  destruct (Nat.eqb (node_uid c) uid); [exact IH | now rewrite IH].
Qed.

Lemma detach_uids (uid : nat) (n : node) :
  incl (node_uids (detach uid n)) (node_uids n).
Proof.
  induction n as [u e cs IH] using NotifierFacts.node_children_ind.
  rewrite detach_Node, !node_uids_Node.
  apply incl_cons; [now left|]. apply incl_tl.
  induction IH as [|c cs Hc _ IHcs]; [apply incl_refl|].
  cbn [detach_all].
  change (forest_uids (c :: cs)) with (node_uids c ++ forest_uids cs)%list.
  destruct (Nat.eqb (node_uid c) uid).
  - now apply incl_appr.
  - change (forest_uids (detach uid c :: detach_all uid cs))
      with (node_uids (detach uid c) ++ forest_uids (detach_all uid cs))%list.
    apply incl_app; [now apply incl_appl | now apply incl_appr].
Qed.

Lemma detach_all_uids (uid : nat) (forest : list node) :
  incl (forest_uids (detach_all uid forest)) (forest_uids forest).
Proof.
  induction forest as [|c cs IH]; [apply incl_refl|].
  cbn [detach_all].
  change (forest_uids (c :: cs)) with (node_uids c ++ forest_uids cs)%list.
  destruct (Nat.eqb (node_uid c) uid).
  - now apply incl_appr.
  - change (forest_uids (detach uid c :: detach_all uid cs))
      with (node_uids (detach uid c) ++ forest_uids (detach_all uid cs))%list.
    apply incl_app; [apply incl_appl, detach_uids | now apply incl_appr].
Qed.

Lemma allocated_fresh (w : world) :
  allocated w -> ~ In (next_uid w) (forest_uids (body w)).
Proof.
  unfold allocated. rewrite Forall_forall. intros H Hin.
  specialize (H _ Hin). lia.
Qed.

Lemma removed_fresh (w : world) :
  allocated w -> ~ In (next_uid w) (forest_uids (remove_all_alerts (body w))).
Proof.
  intros H Hin. apply (allocated_fresh w H).
  now apply remove_all_alerts_uids.
Qed.

(** Identities stay in order: on a page whose nodes were all created
    before [next_uid], [showAlert] gives its element an identity no node
    of the page has, and [showAlert], [console_error] and both removal
    callbacks leave a page of the same kind. *)
Lemma allocated_invariant :
  forall (w : world),
    allocated w ->
    ~ In (next_uid w) (forest_uids (body w)) /\
    (forall msg type, allocated (showAlert msg type w)) /\
    (forall label e, allocated (console_error label e w)) /\
    (forall cb, allocated (run_callback cb w)).
Proof.
  intros w H. repeat apply conj.
  - now apply allocated_fresh.
  - intros msg type. unfold allocated, showAlert. cbn [body next_uid].
    rewrite forest_uids_app. apply Forall_app. split.
    + unfold allocated in H. rewrite Forall_forall in *.
      intros u Hu. apply remove_all_alerts_uids in Hu.
      specialize (H u Hu). lia.
    + repeat constructor.
  - intros label e. exact H.
  - intros cb. unfold allocated in *.
    assert (G : forall uid, Forall (fun u => (u < next_uid w)%nat)
                              (forest_uids (detach_all uid (body w)))).
    { intro uid. rewrite Forall_forall in *. intros u Hu.
      apply H. now apply (detach_all_uids uid). }
    destruct cb; apply G.
Qed.

(** X14. The alert goes away by itself: when the timer that [showAlert]
    set (4000 ms), or a click on the alert, runs its callback, the alert
    leaves the page and nothing else does, so no alert is on display. *)
Theorem alert_removed_by_timer_or_click :
  forall (msg : string) (type : option string) (w : world),
    allocated w ->
    let w' := showAlert msg type w in
    timers w' = (timers w ++ [(4000%Z, RemoveIfAttached (next_uid w))])%list /\
    listeners w' = (listeners w ++ [(next_uid w, "click", Remove (next_uid w))])%list /\
    forall cb, cb = RemoveIfAttached (next_uid w) \/ cb = Remove (next_uid w) ->
      body (run_callback cb w') = remove_all_alerts (body w) /\
      alerts (run_callback cb w') = [].
Proof.
  intros msg type w H w'. subst w'. repeat apply conj; try reflexivity.
  intros cb Hcb.
  assert (E : body (run_callback cb (showAlert msg type w))
              = remove_all_alerts (body w)).
  { assert (D : detach_all (next_uid w) (body (showAlert msg type w))
                = remove_all_alerts (body w)).
    { unfold showAlert. cbn [body]. rewrite detach_all_app.
      rewrite detach_all_absent by now apply removed_fresh.
      simpl. rewrite Nat.eqb_refl. apply app_nil_r. }
    destruct Hcb as [-> | ->]; exact D. }
  split; [exact E|].
  unfold alerts, querySelectorAll. rewrite E.
  apply NotifierFacts.remove_all_alerts_none.
Qed.

Lemma alert_removed_by_timer_or_click_witness :
  alerts (run_callback (RemoveIfAttached 5)
            (showAlert "Done" None Examples.banner_page)) = [].
Proof.
  assert (H : allocated Examples.banner_page).
  { unfold allocated. simpl. repeat constructor. }
  destruct (alert_removed_by_timer_or_click "Done" None Examples.banner_page H)
    as (_ & _ & Hcb).
  destruct (Hcb (RemoveIfAttached 5)) as [_ Ha]; [now left | exact Ha].
Defined.

Lemma remove_all_alerts_app (l r : list node) :
  remove_all_alerts (l ++ r)
  = (remove_all_alerts l ++ remove_all_alerts r)%list.
Proof.
  induction l as [|c l IH]; [reflexivity|]. simpl.
  destruct (has_class "alert" (node_el c)); [exact IH | now rewrite IH].
Qed.

(** The page after two alerts in a row holds nothing of the first. *)
Lemma second_alert_body (m1 m2 : string) (t1 t2 : option string) (w : world) :
  body (showAlert m2 t2 (showAlert m1 t1 w)) =
  (remove_all_alerts (remove_all_alerts (body w)) ++
   [Node (S (next_uid w))
      {| el_id := None;
         className := "alert alert-" ++
                      match t2 with Some k => k | None => "success" end;
         required := false; value := ""; textContent := m2; style := [] |}
      []])%list.
Proof.
  unfold showAlert at 1. cbn [body next_uid]. f_equal.
  unfold showAlert. cbn [body]. rewrite remove_all_alerts_app.
  cbn [remove_all_alerts node_el].
  rewrite (NotifierFacts.alert_class
             (match t1 with Some k => k | None => "success" end))
    by reflexivity.
  apply app_nil_r.
Qed.

(** X15. A replaced alert's timer is harmless: after a second
    [showAlert], the callbacks of the first alert find their element gone
    and change nothing, so the second alert stays on display. *)
Theorem stale_callback_changes_nothing :
  forall (m1 m2 : string) (t1 t2 : option string) (w : world),
    allocated w ->
    let w2 := showAlert m2 t2 (showAlert m1 t1 w) in
    forall cb, cb = RemoveIfAttached (next_uid w) \/ cb = Remove (next_uid w) ->
      run_callback cb w2 = w2 /\
      map textContent (alerts (run_callback cb w2)) = [m2].
Proof.
  intros m1 m2 t1 t2 w H w2 cb Hcb.
  assert (Hd : detach_all (next_uid w) (body w2) = body w2).
  { apply detach_all_absent. subst w2. rewrite second_alert_body.
    rewrite forest_uids_app. intro Hin. apply in_app_or in Hin as [Hin | Hin].
    - apply remove_all_alerts_uids in Hin. now apply (removed_fresh w H).
    - simpl in Hin. destruct Hin as [E | []]. lia. }
  assert (E : run_callback cb w2 = w2).
  { destruct Hcb as [-> | ->]; unfold run_callback; rewrite Hd;
      subst w2; reflexivity. }
  split; [exact E|].
  rewrite E. subst w2. rewrite NotifierFacts.showAlert_alerts. reflexivity.
Qed.

Lemma stale_callback_changes_nothing_witness :
  map textContent
    (alerts (run_callback (RemoveIfAttached 5)
               (showAlert "Second" None
                  (showAlert "First" None Examples.banner_page))))
  = ["Second"].
Proof.
  assert (H : allocated Examples.banner_page).
  { unfold allocated. simpl. repeat constructor. }
  destruct (stale_callback_changes_nothing "First" "Second" None None
              Examples.banner_page H (RemoveIfAttached 5)) as [_ Ha];
    [now left | exact Ha].
Defined.

(** No alert below a node: removing alerts returns the node. *)
Lemma remove_alerts_none_below (n : node) :
  (forall e, In e (descendants n) -> has_class "alert" e = false) ->
  remove_alerts n = n.
Proof.
  induction n as [u e cs IH] using NotifierFacts.node_children_ind.
  rewrite NotifierFacts.remove_alerts_Node, NotifierFacts.descendants_Node.
  intro H. f_equal.
  assert (Hcs : forall x, In x (all_elements cs) -> has_class "alert" x = false)
    by (intros x Hx; apply H; now right).
  clear H. induction IH as [|c cs Hc _ IHcs]; [reflexivity|].
  rewrite NotifierFacts.all_elements_cons in Hcs.
  cbn [remove_all_alerts].
  assert (Hroot : has_class "alert" (node_el c) = false).
  { apply Hcs. apply in_or_app. left. destruct c; simpl. now left. }
  rewrite Hroot.
  rewrite Hc by (intros x Hx; apply Hcs; apply in_or_app; now left).
  rewrite IHcs by (intros x Hx; apply Hcs; apply in_or_app; now right).
  reflexivity.
Qed.

Lemma remove_all_alerts_none_there (forest : list node) :
  (forall e, In e (all_elements forest) -> has_class "alert" e = false) ->
  remove_all_alerts forest = forest.
Proof.
  induction forest as [|c cs IH]; intro H; [reflexivity|].
  rewrite NotifierFacts.all_elements_cons in H.
  cbn [remove_all_alerts].
  assert (Hroot : has_class "alert" (node_el c) = false).
  { apply H. apply in_or_app. left. destruct c; simpl. now left. }
  rewrite Hroot.
  rewrite remove_alerts_none_below
    by (intros x Hx; apply H; apply in_or_app; now left).
  rewrite IH by (intros x Hx; apply H; apply in_or_app; now right).
  reflexivity.
Qed.

(** X16. On a page that shows no alert, [showAlert] only appends: every
    node of the page stays where it was and the new alert is the last
    child of [body]. *)
Theorem showAlert_appends :
  forall (msg : string) (type : option string) (w : world),
    alerts w = [] ->
    exists alertDiv,
      body (showAlert msg type w)
        = (body w ++ [Node (next_uid w) alertDiv []])%list /\
      textContent alertDiv = msg.
Proof.
  intros msg type w H. eexists. split.
  - unfold showAlert. cbn [body]. f_equal.
    apply remove_all_alerts_none_there.
    intros e He. unfold alerts, querySelectorAll in H.
    destruct (has_class "alert" e) eqn:Hc; [|reflexivity].
    assert (Hin : In e (filter (has_class "alert") (all_elements (body w))))
      by (apply filter_In; now split).
    rewrite H in Hin. destruct Hin.
  - reflexivity.
Qed.

Lemma showAlert_appends_witness :
  exists alertDiv,
    body (showAlert "Done" None
            (run_callback (Remove 5) (showAlert "First" None Examples.banner_page)))
      = ([ Node 2 (Examples.div "container" "")
             [ Node 4 (Examples.div "card" "") [] ] ]
         ++ [Node 6 alertDiv []])%list /\
    textContent alertDiv = "Done".
Proof.
  apply (showAlert_appends "Done" None
           (run_callback (Remove 5) (showAlert "First" None Examples.banner_page))).
  reflexivity.
Defined.

End NotifierLifecycle.

(** ** RequestClient: the paths that do not fail on a status *)

Module RequestClientPaths.

Import Notifier RequestClient.

(** X17. A response with a status from 200 to 299 is returned decoded,
    as JSON when the content type declares it and as text otherwise, and
    the page is left alone; but when its body cannot be decoded the call
    fails like any other, with the alert, although the status is a
    success. *)
Theorem makeRequest_success :
  forall (fetch : string -> request_init -> js_error + response)
         (JSON_stringify : json -> string)
         (number_to_string : float -> string)
         (null_property_error to_primitive_error : js_error)
         (url : string) (method : option string) (data : option json)
         (w : world) (resp : response),
    fetch url (request_options JSON_stringify method data) = inr resp ->
    ok resp = true ->
    let r := makeRequest fetch JSON_stringify number_to_string
               null_property_error to_primitive_error url method data w in
    (forall j, declares_json resp = true -> json_body resp = inr j ->
               r = (Return (FromJson j), w)) /\
    (forall s, declares_json resp = false -> text_body resp = inr s ->
               r = (Return (FromText s), w)) /\
    (forall e, decode_body resp = inl e ->
               r = (Throw e,
                    showAlert (message e) (Some "error")
                      (console_error "Request failed:" e w))).
Proof.
  intros fetch JSON_stringify number_to_string null_property_error
         to_primitive_error url method data w resp Hf Hok r.
  subst r. unfold makeRequest, try_request. rewrite Hf, Hok.
  repeat apply conj.
  - intros j Hj Hb. unfold decode_body. rewrite Hj, Hb. reflexivity.
  - intros s Hj Hb. unfold decode_body. rewrite Hj, Hb. reflexivity.
  - intros e He. rewrite He. reflexivity.
Qed.

Lemma makeRequest_success_witness :
  RequestClient.makeRequest
    (Examples.server MoreExamples.created) Examples.stringify
    Examples.print_number Examples.null_error Examples.primitive_error
    "/api/projects" (Some "POST") (Some (JObj [("name", JStr "Site")]))
    Examples.banner_page
  = (Return (FromJson (JObj [("id", JStr "p1")])), Examples.banner_page).
Proof.
  destruct (makeRequest_success
              (Examples.server MoreExamples.created) Examples.stringify
              Examples.print_number Examples.null_error
              Examples.primitive_error "/api/projects" (Some "POST")
              (Some (JObj [("name", JStr "Site")])) Examples.banner_page
              MoreExamples.created eq_refl eq_refl) as (H & _).
  apply H; reflexivity.
Defined.

(** X18. Data that is falsy is not sent: with [0], the empty string,
    [false] or [null] as [data] the request goes out without a body, and
    the call does what the call without [data] does. *)
Theorem makeRequest_falsy_data :
  forall (fetch : string -> request_init -> js_error + response)
         (JSON_stringify : json -> string)
         (number_to_string : float -> string)
         (null_property_error to_primitive_error : js_error)
         (url : string) (method : option string) (d : json) (w : world),
    to_boolean d = false ->
    request_body (request_options JSON_stringify method (Some d)) = None /\
    makeRequest fetch JSON_stringify number_to_string null_property_error
      to_primitive_error url method (Some d) w
    = makeRequest fetch JSON_stringify number_to_string null_property_error
        to_primitive_error url method None w.
Proof.
  intros fetch JSON_stringify number_to_string null_property_error
         to_primitive_error url method d w Hd.
  assert (E : request_options JSON_stringify method (Some d)
              = request_options JSON_stringify method None).
  { unfold request_options. rewrite Hd. reflexivity. }
  split.
  - rewrite E. reflexivity.
  - unfold makeRequest. rewrite E. reflexivity.
Qed.

Lemma makeRequest_falsy_data_witness :
  request_body (request_options Examples.stringify (Some "POST") (Some (JNum 0)))
  = None.
Proof.
  destruct (makeRequest_falsy_data Examples.offline Examples.stringify
              Examples.print_number Examples.null_error
              Examples.primitive_error "/api/count" (Some "POST") (JNum 0)
              Examples.banner_page eq_refl) as [H _].
  exact H.
Defined.

End RequestClientPaths.

(** ** [copyToClipboard] *)

Module ClipboardFacts.

Import Notifier Clipboard.

(** X19. [copyToClipboard] never throws and always ends with exactly one
    alert on display: the success text when the write resolves, and one
    fixed failure text of kind [error] when it rejects; the rejection
    itself goes to the console only. *)
Theorem copyToClipboard_always_alerts :
  forall (writeText : string -> option js_error) (text : string) (w : world),
    let r := copyToClipboard writeText text w in
    fst r = Return tt /\
    (writeText text = None ->
       alerts (snd r) = [Examples.div "alert alert-success" "Copied to clipboard!"] /\
       console (snd r) = console w) /\
    (forall err, writeText text = Some err ->
       alerts (snd r)
         = [Examples.div "alert alert-error" "Failed to copy to clipboard"] /\
       console (snd r) = (console w ++ [("Failed to copy: ", err)])%list).
Proof.
  intros writeText text w r. subst r. unfold copyToClipboard.
  destruct (writeText text) as [err|]; simpl fst; simpl snd.
  - repeat apply conj; [reflexivity | discriminate |].
    intros err' E. injection E as <-.
    rewrite NotifierFacts.showAlert_alerts. split; reflexivity.
  - repeat apply conj; [reflexivity | | discriminate].
    intros _. rewrite NotifierFacts.showAlert_alerts. split; reflexivity.
Qed.

Lemma copyToClipboard_always_alerts_witness :
  map textContent
    (alerts (snd (copyToClipboard
                    (fun _ => Some {| name := "NotAllowedError";
                                      message := "Write permission denied." |})
                    "secret" Examples.banner_page)))
  = ["Failed to copy to clipboard"].
Proof.
  destruct (copyToClipboard_always_alerts
              (fun _ => Some {| name := "NotAllowedError";
                                message := "Write permission denied." |})
              "secret" Examples.banner_page) as (_ & _ & H).
  destruct (H _ eq_refl) as [Ha _]. rewrite Ha. reflexivity.
Defined.

End ClipboardFacts.

(** ** The listeners on forms and submit buttons *)

Lemma forallb_false_witness {X : Type} (p : X -> bool) (l : list X) :
  forallb p l = false -> exists x, In x l /\ p x = false.
Proof.
  induction l as [|x l IH]; simpl; [discriminate|].
  destruct (p x) eqn:Hx; simpl.
  - intro H. destruct (IH H) as (y & Hy & Hpy). exists y. auto.
  - intros _. exists x. auto.
Qed.

Module BootstrapFacts.

Import Notifier Loading Bootstrap.

(** X20. The submit listener stops a submission exactly when some
    required field has an empty trimmed value; it then puts the one alert
    "Please fill in all required fields" of kind [error] on display.  A
    submission that goes ahead raises no alert.  The fields are marked
    either way. *)
Theorem form_submit_guard :
  forall (form : Validator.form) (w : world),
    let prevented := fst (fst (form_submit form w)) in
    let form' := snd (fst (form_submit form w)) in
    let w' := snd (form_submit form w) in
    (prevented = true <->
     exists f, In f form /\ required f = true /\ trim (value f) = "") /\
    (prevented = true ->
       alerts w' = [Examples.div "alert alert-error"
                      "Please fill in all required fields"]) /\
    (prevented = false -> w' = w) /\
    form' = snd (Validator.validateForm form).
Proof.
  intros form w prevented form' w'. subst prevented form' w'.
  unfold form_submit, Validator.validateForm.
  rewrite ValidatorFacts.forEach_required_map. simpl.
  destruct (forallb Validator.filled form) eqn:Hall; simpl.
  - split; [|split; [|split]]; try reflexivity; try discriminate.
    split; [discriminate|].
    intros (f & Hin & Hreq & Hempty).
    rewrite forallb_forall in Hall. specialize (Hall f Hin).
    unfold Validator.filled in Hall. rewrite Hreq, Hempty in Hall.
    discriminate Hall.
  - split; [|split; [|split]]; try reflexivity; try discriminate.
    + split; [intros _ | reflexivity].
      destruct (forallb_false_witness _ _ Hall) as (f & Hin & Hf).
      exists f. unfold Validator.filled in Hf.
      destruct (required f); simpl in Hf; [|discriminate Hf].
      apply string_truthy_false in Hf. auto.
    + intros _. apply NotifierFacts.showAlert_alerts.
Qed.

Lemma form_submit_guard_witness :
  alerts (snd (form_submit Examples.signup Examples.banner_page))
  = [Examples.div "alert alert-error" "Please fill in all required fields"].
Proof.
  destruct (form_submit_guard Examples.signup Examples.banner_page)
    as (_ & H & _).
  apply H. reflexivity.
Defined.

(** X21. A click on a submit button inside a form: when the form
    validates, the button is disabled and its markup is the spinner with
    "Saving...", and the timer set for 2000 ms enables it again and
    assigns the text saved before the click as its markup.  The text the
    button then shows is that markup read back: it is the text saved
    exactly when the saved text, read as markup, is itself.  When the form
    does not validate the button is left alone and no timer is set.  The
    click marks the fields either way. *)
Theorem button_click_loading :
  forall (textContent_of : string -> string) (b : button)
         (form : Validator.form),
    button_type b = "submit" ->
    let c := button_click textContent_of b (Some form) in
    let saved := textContent_of (innerHTML b) in
    form_after c = Some (snd (Validator.validateForm form)) /\
    (fst (Validator.validateForm form) = true ->
       disabled (button_after c) = true /\
       innerHTML (button_after c) = spinner ++ " Saving..." /\
       restore c = Some (2000%Z, saved) /\
       run_restore c =
         {| button_type := "submit"; disabled := false; innerHTML := saved |} /\
       textContent_of (innerHTML (run_restore c)) = textContent_of saved /\
       (textContent_of (innerHTML (run_restore c)) = saved <->
        textContent_of saved = saved)) /\
    (fst (Validator.validateForm form) = false ->
       button_after c = b /\ restore c = None /\ run_restore c = b).
Proof.
  intros textContent_of b form Hb c saved. subst c saved. unfold button_click.
  rewrite Hb. simpl String.eqb. cbv iota.
  destruct (Validator.validateForm form) as [valid form'].
  simpl fst; simpl snd.
  destruct valid.
  - split; [reflexivity|]. split; [|discriminate].
    intros _.
    assert (Hr : run_restore
                   {| button_after := showLoading b (Some "Saving...");
                      form_after := Some form';
                      restore := Some (2000%Z, textContent_of (innerHTML b)) |}
                 = {| button_type := "submit"; disabled := false;
                      innerHTML := textContent_of (innerHTML b) |}).
    { unfold run_restore. simpl. unfold hideLoading. simpl. now rewrite Hb. }
    split; [reflexivity|]. split; [reflexivity|]. split; [reflexivity|].
    split; [exact Hr|]. rewrite Hr. simpl. split; [reflexivity|].
    split; intro H; exact H.
  - split; [reflexivity|]. split; [discriminate|].
    intros _. repeat split; reflexivity.
Qed.

Lemma button_click_loading_witness :
  run_restore
    (button_click (fun _ => "Save")
       {| button_type := "submit"; disabled := false; innerHTML := "Save" |}
       (Some [Examples.input "form-control" true "Ada"]))
  = {| button_type := "submit"; disabled := false; innerHTML := "Save" |}.
Proof.
  destruct (button_click_loading (fun _ => "Save")
              {| button_type := "submit"; disabled := false; innerHTML := "Save" |}
              [Examples.input "form-control" true "Ada"] eq_refl)
    as (_ & H & _).
  destruct (H eq_refl) as (_ & _ & _ & Hr & _). exact Hr.
Defined.

End BootstrapFacts.

(** ** [escapeHtml] *)

Module EscapeFacts.

Import Escape.

Lemma count_char_append (c : ascii) (s t : string) :
  count_char c (s ++ t) = (count_char c s + count_char c t)%nat.
Proof.
  induction s as [|a s IH]; [reflexivity|]. simpl.
  destruct (Ascii.eqb a c); simpl; now rewrite IH.
Qed.

(** Induction that follows [escapeHtml]: the step may use the property
    one and two characters further on. *)
Lemma two_step_ind (P : string -> Prop) :
  P "" ->
  (forall a r, P r -> (forall b r', r = String b r' -> P r') -> P (String a r)) ->
  forall s, P s.
Proof.
  intros H0 Hstep s.
  assert (H : P s /\ (forall b r', s = String b r' -> P r')).
  { induction s as [|a s [IH1 IH2]].
    - split; [exact H0 | discriminate].
    - split; [now apply Hstep|].
      intros b r' E. injection E as _ <-. exact IH1. }
  exact (proj1 H).
Qed.

Lemma byte_neq (a c : ascii) :
  N_of_ascii a <> N_of_ascii c -> Ascii.eqb a c = false.
Proof.
  intro H. apply Ascii.eqb_neq. intro E. apply H. now subst.
Qed.

(** X22. The text [escapeHtml] returns holds neither "<" nor ">". *)
Theorem escapeHtml_no_angle_brackets :
  forall text : string,
    count_char "<" (escapeHtml text) = O /\
    count_char ">" (escapeHtml text) = O.
Proof.
  intro text. pattern text. apply two_step_ind; clear text.
  - split; reflexivity.
  - intros a r [IHl IHg] IH2.
    cbn [escapeHtml]. cbv zeta.
    destruct (N.eqb_spec (N_of_ascii a) 38);
      [rewrite !count_char_append, IHl, IHg; split; reflexivity|].
    destruct (N.eqb_spec (N_of_ascii a) 60) as [E60|E60];
      [rewrite !count_char_append, IHl, IHg; split; reflexivity|].
    destruct (N.eqb_spec (N_of_ascii a) 62) as [E62|E62];
      [rewrite !count_char_append, IHl, IHg; split; reflexivity|].
    assert (Hl : Ascii.eqb a "<" = false) by (apply byte_neq; exact E60).
    assert (Hg : Ascii.eqb a ">" = false) by (apply byte_neq; exact E62).
    destruct (N.eqb_spec (N_of_ascii a) 194).
    + destruct r as [|b r'].
      * cbn [count_char]. rewrite Hl, Hg. split; reflexivity.
      * destruct (IH2 b r' eq_refl) as [IHl' IHg'].
        destruct (N.eqb_spec (N_of_ascii b) 160).
        -- rewrite !count_char_append, IHl', IHg'. split; reflexivity.
        -- cbn [count_char]. rewrite Hl, Hg. split; assumption.
    + cbn [count_char]. rewrite Hl, Hg. split; assumption.
Qed.

(** X23. Quotes are not escaped: the returned text has as many double
    quotes and as many apostrophes as the text given, so it is not safe
    inside an attribute value. *)
Theorem escapeHtml_keeps_quotes :
  forall text : string,
    count_char quote_char (escapeHtml text) = count_char quote_char text /\
    count_char "'" (escapeHtml text) = count_char "'" text.
Proof.
  intro text. pattern text. apply two_step_ind; clear text.
  - split; reflexivity.
  - intros a r [IHq IHa] IH2. cbn [escapeHtml]. cbv zeta.
    assert (Hq : forall x : ascii, N_of_ascii x <> 34%N ->
                                   Ascii.eqb x quote_char = false)
      by (intros x Hx; apply byte_neq; exact Hx).
    assert (Ha : forall x : ascii, N_of_ascii x <> 39%N ->
                                   Ascii.eqb x "'" = false)
      by (intros x Hx; apply byte_neq; exact Hx).
    destruct (N.eqb_spec (N_of_ascii a) 38) as [E|E].
    { rewrite !count_char_append, IHq, IHa. cbn [count_char].
      rewrite (Hq a), (Ha a) by (rewrite E; discriminate).
      split; reflexivity. }
    destruct (N.eqb_spec (N_of_ascii a) 60) as [E60|E60].
    { rewrite !count_char_append, IHq, IHa. cbn [count_char].
      rewrite (Hq a), (Ha a) by (rewrite E60; discriminate).
      split; reflexivity. }
    destruct (N.eqb_spec (N_of_ascii a) 62) as [E62|E62].
    { rewrite !count_char_append, IHq, IHa. cbn [count_char].
      rewrite (Hq a), (Ha a) by (rewrite E62; discriminate).
      split; reflexivity. }
    destruct (N.eqb_spec (N_of_ascii a) 194) as [E194|E194].
    + destruct r as [|b r']; [split; reflexivity|].
      destruct (IH2 b r' eq_refl) as [IHq' IHa'].
      destruct (N.eqb_spec (N_of_ascii b) 160) as [E160|E160].
      * rewrite !count_char_append, IHq', IHa'. cbn [count_char].
        rewrite (Hq a), (Ha a) by (rewrite E194; discriminate).
        rewrite (Hq b), (Ha b) by (rewrite E160; discriminate).
        split; reflexivity.
      * cbn [count_char]. rewrite IHq, IHa. split; reflexivity.
    + cbn [count_char]. rewrite IHq, IHa. split; reflexivity.
Qed.

(** X24. A text without "&", "<", ">" and without the byte 194 that
    starts a no-break space comes back unchanged. *)
Theorem escapeHtml_plain_text :
  forall text : string,
    forallb (fun a => let n := N_of_ascii a in
                      negb ((n =? 38) || (n =? 60) || (n =? 62) || (n =? 194))%N)
            (list_ascii_of_string text) = true ->
    escapeHtml text = text.
Proof.
  induction text as [|a r IH]; [reflexivity|].
  simpl. intro H. apply andb_true_iff in H as [Ha Hr].
  apply negb_true_iff in Ha. repeat apply orb_false_iff in Ha as [Ha ?].
  rewrite Ha, H1, H0, H. now rewrite IH.
Qed.

Lemma escapeHtml_plain_text_witness :
  escapeHtml "Ada's plan" = "Ada's plan".
Proof.
  apply (escapeHtml_plain_text "Ada's plan"). reflexivity.
Defined.

(** The markup of a script element comes back as text. *)
Example escapeHtml_script :
  escapeHtml "<b>R&D</b>" = "&lt;b&gt;R&amp;D&lt;/b&gt;".
Proof. reflexivity. Qed.

End EscapeFacts.

(** ** [debounce] *)

Module DebounceFacts.

Import Debounce DebounceState.

Section Debounced.

Variable A : Type.
Variable wait : Z.

Lemma handle_filter_self (t : timer A) :
  filter (fun t' => negb (Nat.eqb (handle t') (handle t))) [t] = [].
Proof. simpl. now rewrite Nat.eqb_refl. Qed.

(** A call drops the timer that is held and holds a new one. *)
Lemma executedFunction_held (now : Z) (a : A) (st : state A) :
  held st ->
  executedFunction A wait now a st =
  {| timeout := Some (next_handle st);
     pending := [ {| handle := next_handle st;
                     due := (now + delay wait)%Z; args := a |} ];
     next_handle := S (next_handle st);
     delivered := delivered st |}.
Proof.
  intros [Hp | (t & Hp & Ht)]; unfold executedFunction, clearTimeout.
  - destruct (timeout st); simpl; rewrite Hp; reflexivity.
  - rewrite Ht. simpl. rewrite Hp, handle_filter_self. reflexivity.
Qed.

(** Time passing runs the held timer once it is due, and nothing else. *)
Lemma elapse_held (now : Z) (st : state A) :
  held st ->
  elapse A now st =
  match pending st with
  | t :: _ =>
    if (due t <=? now)%Z
    then {| timeout := timeout st; pending := [];
            next_handle := next_handle st;
            delivered := (delivered st ++ [args t])%list |}
    else st
  | [] => st
  end.
Proof.
  intros [Hp | (t & Hp & Ht)]; unfold elapse; rewrite Hp; [reflexivity|].
  simpl. rewrite Hp. simpl.
  destruct (due t <=? now)%Z; [|reflexivity].
  unfold later, take, clearTimeout. simpl.
  rewrite Hp, handle_filter_self, Ht. reflexivity.
Qed.

Lemma step_held (st : state A) (ev : event A) :
  held st -> held (step A wait st ev).
Proof.
  intro H. destruct ev as [now a | now]; simpl.
  - rewrite (executedFunction_held now a st H). right.
    eexists. split; reflexivity.
  - rewrite (elapse_held now st H).
    destruct H as [Hp | (t & Hp & Ht)]; rewrite Hp.
    + now left.
    + destruct (due t <=? now)%Z; [now left|]. right. now exists t.
Qed.

Lemma run_app (st : state A) (evs evs' : list (event A)) :
  run A wait st (evs ++ evs') = run A wait (run A wait st evs) evs'.
Proof. apply fold_left_app. Qed.

Lemma run_held (evs : list (event A)) (st : state A) :
  held st -> held (run A wait st evs).
Proof.
  revert st. induction evs as [|ev evs IH]; intros st H; [exact H|].
  apply (IH (step A wait st ev)). now apply step_held.
Qed.

Lemma initial_held : held (initial A).
Proof. now left. Qed.

End Debounced.

(** X25. However calls and timer runs interleave, the debounced function
    holds at most one timer, and it is the one its [timeout] variable
    names. *)
Theorem debounce_one_timer :
  forall (A : Type) (wait : Z) (evs : list (event A)),
    let st := run A wait (initial A) evs in
    (List.length (pending st) <= 1)%nat /\
    (forall t, In t (pending st) -> timeout st = Some (handle t)).
Proof.
  intros A wait evs st.
  assert (H : held st) by (apply run_held, initial_held).
  destruct H as [Hp | (t & Hp & Ht)]; rewrite Hp; simpl.
  - split; [lia | intros t []].
  - split; [lia | intros t' [<- | []]; exact Ht].
Qed.

Lemma debounce_one_timer_witness :
  (List.length
     (pending (run string 300 (initial string)
                 [Invoke 0 "a"; Invoke 100 "ab"; Elapse 350; Invoke 390 "abc"]%Z))
   <= 1)%nat.
Proof.
  destruct (debounce_one_timer string 300
              [Invoke 0 "a"; Invoke 100 "ab"; Elapse 350; Invoke 390 "abc"]%Z)
    as [Hlen _].
  exact Hlen.
Defined.

(** The delay is the wait wherever a signed 32-bit integer holds it, and
    nothing for a negative wait or one from 2^31 to 2^32 - 1. *)
Lemma delay_cases (wait : Z) :
  ((0 <= wait < 2 ^ 31)%Z -> delay wait = wait) /\
  ((- 2 ^ 31 <= wait < 0)%Z -> delay wait = 0%Z) /\
  ((2 ^ 31 <= wait < 2 ^ 32)%Z -> delay wait = 0%Z) /\
  (0 <= delay wait < 2 ^ 31)%Z.
Proof.
  unfold delay, to_int32.
  assert (P31 : (2 ^ 31 = 2147483648)%Z) by reflexivity.
  assert (P32 : (2 ^ 32 = 4294967296)%Z) by reflexivity.
  rewrite P31, P32.
  pose proof (Z.mod_pos_bound (wait + 2147483648) 4294967296 eq_refl) as Hm.
  repeat apply conj.
  - intro H. rewrite Z.mod_small by lia. lia.
  - intro H. rewrite Z.mod_small by lia. lia.
  - intro H.
    replace (wait + 2147483648)%Z
      with (wait - 2147483648 + 1 * 4294967296)%Z by lia.
    rewrite Z.mod_add by discriminate. rewrite Z.mod_small by lia. lia.
  - lia.
  - lia.
Qed.



Section Accounting.

Variable A : Type.
Variable wait : Z.

Lemma invoked_app (evs evs' : list (event A)) :
  invoked A (evs ++ evs') = (invoked A evs ++ invoked A evs')%list.
Proof.
  induction evs as [|[now a | now] evs IH]; simpl; [reflexivity | |exact IH].
  now rewrite IH.
Qed.

(** Calls alone never run [func]. *)
Lemma burst_delivers_nothing (calls : list (Z * A)) (st : state A) :
  held st ->
  delivered (run A wait st (burst calls)) = delivered st.
Proof.
  revert st. induction calls as [|[now a] calls IH]; intros st H; [reflexivity|].
  change (run A wait st (burst ((now, a) :: calls)))
    with (run A wait (executedFunction A wait now a st) (burst calls)).
  rewrite IH by apply (step_held A wait st (Invoke now a) H).
  now rewrite (executedFunction_held A wait now a st H).
Qed.

(** What was delivered and what is held came from calls, one call
    each. *)
Lemma step_accounted (st : state A) (ev : event A) (inv : list A) :
  held st ->
  incl (delivered st ++ map args (pending st)) inv ->
  (List.length (delivered st) + List.length (pending st) <= List.length inv)%nat ->
  let st' := step A wait st ev in
  let inv' := (inv ++ invoked A [ev])%list in
  incl (delivered st' ++ map args (pending st')) inv' /\
  (List.length (delivered st') + List.length (pending st') <= List.length inv')%nat.
Proof.
  intros H Hin Hlen st' inv'. subst st' inv'.
  destruct ev as [now a | now]; cbn [step invoked].
  - rewrite (executedFunction_held A wait now a st H). simpl. split.
    + intros x Hx. apply in_app_or in Hx as [Hx | [<- | []]].
      * apply in_or_app. left. apply Hin. apply in_or_app. now left.
      * apply in_or_app. right. now left.
    + rewrite length_app. simpl. lia.
  - rewrite app_nil_r. assert (E := elapse_held A now st H).
    destruct H as [Hp | (t & Hp & Ht)]; rewrite Hp in E; cbv iota in E.
    + rewrite E. split; assumption.
    + destruct (due t <=? now)%Z; rewrite E; [|split; assumption].
      rewrite Hp in Hin, Hlen. simpl in *. split.
      * rewrite app_nil_r. exact Hin.
      * rewrite length_app. simpl. lia.
Qed.

Lemma run_accounted (evs : list (event A)) :
  let st := run A wait (initial A) evs in
  incl (delivered st ++ map args (pending st)) (invoked A evs) /\
  (List.length (delivered st) + List.length (pending st)
   <= List.length (invoked A evs))%nat.
Proof.
  induction evs as [|ev evs IH] using rev_ind.
  - simpl. split; [apply incl_refl | lia].
  - destruct IH as [Hin Hlen]. cbv zeta.
    rewrite run_app, invoked_app.
    apply (step_accounted (run A wait (initial A) evs) ev (invoked A evs));
      [apply run_held, initial_held | exact Hin | exact Hlen].
Qed.

End Accounting.

(** X27. A burst of calls with no timer run in between costs one call of
    [func].  Whatever the times of the calls, [func] is not called while
    the delay that [setTimeout] reads from [wait] has not passed since the
    last call, however often the browser looks at its timers in that
    time; once the delay has passed, [func] has been called exactly once,
    with the arguments of the last call.  The delay is [wait] itself from
    0 to 2^31 - 1. *)
Theorem debounce_burst :
  forall (A : Type) (wait : Z) (calls : list (Z * A)) (now : Z) (a : A)
         (early : list Z) (t' : Z),
    Forall (fun t => (t < now + delay wait)%Z) early ->
    (now + delay wait <= t')%Z ->
    delivered (run A wait (initial A)
                 (burst calls ++ [Invoke now a] ++ map (@Elapse A) early))
      = [] /\
    delivered (run A wait (initial A)
                 (burst calls ++ [Invoke now a] ++ map (@Elapse A) early
                  ++ [Elapse t']))
      = [a] /\
    ((0 <= wait < 2 ^ 31)%Z -> delay wait = wait).
Proof.
  intros A wait calls now a early t' Hearly Ht'.
  assert (Hb : held (run A wait (initial A) (burst calls)))
    by (apply run_held, initial_held).
  assert (Hd : delivered (run A wait (initial A) (burst calls)) = [])
    by (apply (burst_delivers_nothing A wait calls (initial A)), initial_held).
  set (st := {| timeout := Some (next_handle (run A wait (initial A) (burst calls)));
                pending :=
                  [ {| handle := next_handle (run A wait (initial A) (burst calls));
                       due := (now + delay wait)%Z; args := a |} ];
                next_handle := S (next_handle (run A wait (initial A) (burst calls)));
                delivered := delivered (run A wait (initial A) (burst calls)) |}).
  assert (E1 : run A wait (initial A) (burst calls ++ [Invoke now a]) = st).
  { rewrite run_app. apply (executedFunction_held A wait now a _ Hb). }
  assert (Hst : held st) by (right; eexists; split; reflexivity).
  assert (E2 : run A wait st (map (@Elapse A) early) = st).
  { clear Ht'. induction Hearly as [|t early Ht _ IH]; [reflexivity|].
    change (run A wait st (map (@Elapse A) (t :: early)))
      with (run A wait (elapse A t st) (map (@Elapse A) early)).
    assert (E : elapse A t st = st).
    { rewrite (elapse_held A t st Hst). simpl.
      apply Z.leb_gt in Ht. now rewrite Ht. }
    rewrite E. exact IH. }
  split; [|split].
  - rewrite app_assoc, run_app, E1, E2. exact Hd.
  - rewrite app_assoc, run_app, E1, run_app, E2.
    change (run A wait st [Elapse t']) with (elapse A t' st).
    rewrite (elapse_held A t' st Hst). simpl.
    apply Z.leb_le in Ht'. rewrite Ht'. simpl. now rewrite Hd.
  - apply delay_cases.
Qed.

Lemma debounce_burst_witness :
  delivered
    (run string 300 (initial string)
       (burst [(0, "p"); (120, "pr"); (250, "pro")]
        ++ [Invoke 400 "proj"] ++ map (@Elapse string) [500; 650]
        ++ [Elapse 700]))%Z
  = ["proj"].
Proof.
  destruct (debounce_burst string 300 [(0, "p"); (120, "pr"); (250, "pro")]%Z
              400 "proj" [500; 650]%Z 700) as (_ & H & _).
  - repeat constructor.
  - discriminate.
  - exact H.
Defined.

(** X28. [func] is never called more often than the debounced function,
    and only with arguments that were passed to it: every delivery and
    the timer still held answer for one call each. *)
Theorem debounce_deliveries_bounded :
  forall (A : Type) (wait : Z) (evs : list (event A)),
    let st := run A wait (initial A) evs in
    (forall a, In a (delivered st) -> In a (invoked A evs)) /\
    (List.length (delivered st) + List.length (pending st)
     <= List.length (invoked A evs))%nat.
Proof.
  intros A wait evs st. subst st.
  destruct (run_accounted A wait evs) as [Hin Hlen]. split; [|exact Hlen].
  intros a Ha. apply Hin. apply in_or_app. now left.
Qed.

Lemma debounce_deliveries_bounded_witness :
  In "ab" (invoked string [Invoke 0 "a"; Invoke 100 "ab"; Elapse 500])%Z.
Proof.
  destruct (debounce_deliveries_bounded string 300
              [Invoke 0 "a"; Invoke 100 "ab"; Elapse 500]%Z) as [H _].
  apply H. left. reflexivity.
Defined.

End DebounceFacts.

(** ** Tooltips *)

Module TooltipFacts.

Import Notifier Identity Tooltip.

Lemma get_deleted (target : nat) (l : list (nat * nat)) :
  get_tooltip target (delete_tooltip target l) = None.
Proof.
  induction l as [|[t tip] l IH]; [reflexivity|]. simpl.
  destruct (Nat.eqb t target) eqn:E; simpl; [exact IH|].
  now rewrite E.
Qed.

Section Layout.

Variable data_tooltip : nat -> option string.
Variable getBoundingClientRect : nat -> rect.
Variable offsetHeight : element -> float.
Variable offsetWidth : element -> float.
Variable number_to_string : float -> string.

Lemma tooltip_is_no_alert (target : nat) :
  has_class "alert"
    (placed_tooltip data_tooltip getBoundingClientRect offsetHeight
       offsetWidth number_to_string target) = false.
Proof. reflexivity. Qed.

Lemma showTooltip_stored (target : nat) (pg : page) :
  get_tooltip target
    (expando (showTooltip data_tooltip getBoundingClientRect offsetHeight
                offsetWidth number_to_string target pg))
  = Some (next_uid (dom pg)).
Proof. simpl. now rewrite Nat.eqb_refl. Qed.

Lemma delete_stored (target uid : nat) (l : list (nat * nat)) :
  delete_tooltip target ((target, uid) :: l) = delete_tooltip target l.
Proof. unfold delete_tooltip. simpl. now rewrite Nat.eqb_refl. Qed.

End Layout.

(** X29. Pointer in, pointer out: on a page whose nodes were all created
    before [next_uid], [hideTooltip] after [showTooltip] on the same
    target takes the tooltip off again, so the tree below [body] is what
    it was, and the target keeps no tooltip.  While it is shown the
    tooltip is the last child of [body] and is no alert. *)
Theorem tooltip_round_trip :
  forall (data_tooltip : nat -> option string)
         (getBoundingClientRect : nat -> rect)
         (offsetHeight offsetWidth : element -> float)
         (number_to_string : float -> string)
         (target : nat) (pg : page),
    allocated (dom pg) ->
    let shown := showTooltip data_tooltip getBoundingClientRect offsetHeight
                   offsetWidth number_to_string target pg in
    let hidden := hideTooltip target shown in
    body (dom hidden) = body (dom pg) /\
    get_tooltip target (expando hidden) = None /\
    alerts (dom shown) = alerts (dom pg) /\
    exists tip, body (dom shown)
                = (body (dom pg) ++ [Node (next_uid (dom pg)) tip []])%list /\
                textContent tip = match data_tooltip target with
                                  | Some text => text
                                  | None => ""
                                  end.
Proof.
  intros data_tooltip getBoundingClientRect offsetHeight offsetWidth
         number_to_string target pg H shown hidden.
  assert (Hh : hidden =
    {| dom := set_body (detach_all (next_uid (dom pg)) (body (dom shown)))
                (dom shown);
       expando := delete_tooltip target (expando shown) |}).
  { subst hidden. unfold hideTooltip. subst shown.
    now rewrite showTooltip_stored. }
  repeat apply conj.
  - rewrite Hh. subst shown. simpl.
    rewrite NotifierLifecycle.detach_all_app.
    rewrite NotifierLifecycle.detach_all_absent
      by now apply NotifierLifecycle.allocated_fresh.
    simpl. rewrite Nat.eqb_refl. apply app_nil_r.
  - rewrite Hh. cbn [expando]. apply get_deleted.
  - subst shown. unfold alerts, querySelectorAll. simpl.
    rewrite NotifierFacts.all_elements_app, filter_app. simpl.
    apply app_nil_r.
  - eexists. split; reflexivity.
Qed.

Lemma tooltip_round_trip_witness :
  body (dom (hideTooltip 4
               (showTooltip (fun _ => Some "Open the project")
                  (fun _ => {| rect_top := 100; rect_left := 40; rect_width := 80 |})
                  (fun _ => 24%float) (fun _ => 120%float)
                  Examples.print_number 4
                  {| dom := Examples.banner_page; expando := [] |})))
  = body Examples.banner_page.
Proof.
  assert (H : allocated Examples.banner_page).
  { unfold allocated. simpl. repeat constructor. }
  destruct (tooltip_round_trip (fun _ => Some "Open the project")
              (fun _ => {| rect_top := 100; rect_left := 40; rect_width := 80 |})
              (fun _ => 24%float) (fun _ => 120%float)
              Examples.print_number 4
              {| dom := Examples.banner_page; expando := [] |} H) as [Hb _].
  exact Hb.
Defined.

(** X30. A second [showTooltip] on a target that still has its tooltip
    loses the first one: the property on the target is overwritten, so
    [hideTooltip] removes the second tooltip only and the first stays on
    the page, out of reach of any later [hideTooltip]. *)
Theorem tooltip_shown_twice_leaks :
  forall (data_tooltip : nat -> option string)
         (getBoundingClientRect : nat -> rect)
         (offsetHeight offsetWidth : element -> float)
         (number_to_string : float -> string)
         (target : nat) (pg : page),
    allocated (dom pg) ->
    let show := showTooltip data_tooltip getBoundingClientRect offsetHeight
                  offsetWidth number_to_string target in
    let left_over := hideTooltip target (show (show pg)) in
    body (dom left_over)
      = (body (dom pg) ++
         [Node (next_uid (dom pg))
            (placed_tooltip data_tooltip getBoundingClientRect offsetHeight
               offsetWidth number_to_string target) []])%list /\
    hideTooltip target left_over = left_over.
Proof.
  intros data_tooltip getBoundingClientRect offsetHeight offsetWidth
         number_to_string target pg H show left_over.
  assert (Hh : left_over =
    {| dom := set_body (detach_all (S (next_uid (dom pg)))
                          (body (dom (show (show pg)))))
                (dom (show (show pg)));
       expando := delete_tooltip target (expando (show (show pg))) |}).
  { subst left_over. unfold hideTooltip. subst show.
    now rewrite showTooltip_stored. }
  split.
  - rewrite Hh. subst show. simpl.
    rewrite !NotifierLifecycle.detach_all_app.
    rewrite NotifierLifecycle.detach_all_absent.
    + simpl. rewrite Nat.eqb_refl.
      destruct (Nat.eqb_spec (next_uid (dom pg)) (S (next_uid (dom pg))));
        [lia|].
      now rewrite app_nil_r.
    + intro Hin. unfold allocated in H. rewrite Forall_forall in H.
      specialize (H _ Hin). lia.
  - unfold hideTooltip at 1. rewrite Hh at 1. cbn [expando].
    now rewrite get_deleted.
Qed.

Lemma tooltip_shown_twice_leaks_witness :
  List.length
    (body (dom (hideTooltip 4
                  (showTooltip (fun _ => Some "Open") 
                     (fun _ => {| rect_top := 100; rect_left := 40; rect_width := 80 |})
                     (fun _ => 24%float) (fun _ => 120%float)
                     Examples.print_number 4
                     (showTooltip (fun _ => Some "Open")
                        (fun _ => {| rect_top := 100; rect_left := 40; rect_width := 80 |})
                        (fun _ => 24%float) (fun _ => 120%float)
                        Examples.print_number 4
                        {| dom := Examples.banner_page; expando := [] |})))))
  = 3%nat.
Proof.
  assert (H : allocated Examples.banner_page).
  { unfold allocated. simpl. repeat constructor. }
  destruct (tooltip_shown_twice_leaks (fun _ => Some "Open")
              (fun _ => {| rect_top := 100; rect_left := 40; rect_width := 80 |})
              (fun _ => 24%float) (fun _ => 120%float)
              Examples.print_number 4
              {| dom := Examples.banner_page; expando := [] |} H) as [Hb _].
  cbv zeta in Hb. rewrite Hb. reflexivity.
Defined.

End TooltipFacts.
